(** * BackRemove: the gateway logic of [app/main.py]

    A shallow embedding of the request gateway of BackRemove: the per-client
    lockout tracker that guards the API key check, the size-bounded upload
    loop, and the translation of the processing outcome into HTTP responses.

    Conventions.
    - [time.monotonic()] is an input of the program.  Every function that
      reads the clock takes the reading as an argument [now : float], a
      binary64 number as in Python; readings are subtracted and compared as
      Python does it, with the rounding of binary64.
    - The two module-level dictionaries [_failed_attempts] and [_blocked_ips]
      and the sequence of observable events (log records, reads of the
      upload, the start of the processing thread) form one record, [World],
      that every effectful function takes and returns.
    - [raise HTTPException(...)] is a value of the result type.
    - Python [int] is [Z]; [bytes] is [list byte]; [str] is [string], one
      character per code point below 256 (header values are latin-1). *)

From Stdlib Require Import ZArith.
From Stdlib Require Import Floats.PrimFloat.
From Stdlib.Strings Require Import Ascii String Byte.
From Stdlib Require Import Permutation.
From stdpp Require Import base option list strings gmap fin_maps pretty.

Set Warnings "-inexact-float".

Local Open Scope float_scope.

(** ** Module constants ([main.py], lines 30-32 and 45)

    [BLOCK_DURATION] and [ATTEMPT_WINDOW] are the integers 900 and 60, with
    which the program compares differences of binary64 clock readings;
    both are binary64 numbers themselves. *)

Definition MAX_FAILED_ATTEMPTS : nat := 5.
Definition BLOCK_DURATION : float := 900.
Definition ATTEMPT_WINDOW : float := 60.
Definition MAX_FILE_SIZE : Z := 20 * 1024 * 1024.

(** The literal set [ALLOWED_TYPES] (lines 37-44). *)
Definition ALLOWED_TYPES : gset string :=
  {[ "image/jpeg"; "image/png"; "image/webp";
     "image/gif"; "image/avif"; "image/svg+xml" ]}.

(** The argument of [file.read] (line 139). *)
Definition READ_SIZE : Z := 1024 * 256.

(** ** The world *)

Abbreviation bytes := (list byte).

Inductive Event : Type :=
  | LogWarning (msg : string)
      (* logger.warning(msg) *)
  | LogError (msg : string)
      (* logger.error(msg) *)
  | FileRead (size : Z) (chunk : bytes)
      (* await file.read(size) returned chunk *)
  | Offload (image_bytes : bytes) (content_type : string).
      (* anyio.to_thread.run_sync was called with the lambda closing over
         these two values *)

(** The two process-wide dictionaries and the events so far, oldest first. *)
Record World : Type := mkWorld {
  _failed_attempts : gmap string (list float);
  _blocked_ips : gmap string float;
  events : list Event
}.

(** Both dictionaries are empty when the module is loaded. *)
Definition world_init : World := mkWorld ∅ ∅ [].

Definition emit (e : Event) (w : World) : World :=
  mkWorld (_failed_attempts w) (_blocked_ips w) (events w ++ [e]).

(** ** [_is_blocked] (lines 55-61) *)

Definition _is_blocked (now : float) (ip : string) (w : World) : bool * World :=
  match _blocked_ips w !! ip with
  | Some since =>
      if (now - since <? BLOCK_DURATION) then (true, w)
      else (false, mkWorld (delete ip (_failed_attempts w))
                           (delete ip (_blocked_ips w))
                           (events w))
  | None => (false, w)
  end.

(** ** [_record_failure] (lines 64-73) *)

(** The comprehension [[t for t in attempts if now - t < ATTEMPT_WINDOW]];
    [now - t] is the binary64 difference and [<?] the test on binary64
    numbers. *)
Definition in_window (now : float) (attempts : list float) : list float :=
  List.filter (fun t => (now - t <? ATTEMPT_WINDOW)) attempts.

(** [_failed_attempts.get(ip, [])] (line 66). *)
Definition stored_attempts (ip : string) (w : World) : list float :=
  default [] (_failed_attempts w !! ip).

(** The list bound to [attempts] when line 71 is reached. *)
Definition attempts_after (now : float) (ip : string) (w : World) : list float :=
  in_window now (stored_attempts ip w) ++ [now].

(** The f-string of line 73; [BLOCK_DURATION] prints as [900]. *)
Definition blocked_message (ip : string) (n : nat) : string :=
  "Blocked " +:+ ip +:+ " for 900s after " +:+ pretty n
    +:+ " failed auth attempts".

Definition _record_failure (now : float) (ip : string) (w : World) : World :=
  let attempts := attempts_after now ip w in
  let failed := <[ip := attempts]> (_failed_attempts w) in
  if (MAX_FAILED_ATTEMPTS <=? length attempts)%nat
  then mkWorld failed (<[ip := now]> (_blocked_ips w))
               (events w ++ [LogWarning (blocked_message ip (length attempts))])
  else mkWorld failed (_blocked_ips w) (events w).

(** ** Strings: [split(",")[0]] and [strip()] *)

(** The first field of [s.split(",")]: everything before the first comma. *)
Fixpoint first_field (s : string) : string :=
  match s with
  | EmptyString => EmptyString
  | String c r => if Ascii.eqb c ","%char then EmptyString
                  else String c (first_field r)
  end.

(** [str.isspace] on one code point below 256. *)
Definition py_isspace (c : ascii) : bool :=
  let n := nat_of_ascii c in
  ((9 <=? n) && (n <=? 13) || (28 <=? n) && (n <=? 32)
   || (n =? 133) || (n =? 160))%nat.

Fixpoint lstrip (s : string) : string :=
  match s with
  | EmptyString => EmptyString
  | String c r => if py_isspace c then lstrip r else s
  end.

Fixpoint rstrip (s : string) : string :=
  match s with
  | EmptyString => EmptyString
  | String c r =>
      match rstrip r with
      | EmptyString => if py_isspace c then EmptyString
                       else String c EmptyString
      | r' => String c r'
      end
  end.

Definition strip (s : string) : string := rstrip (lstrip s).

(** ** [_get_client_ip] (lines 48-52) *)

(** What the handler reads of a request: the [X-Forwarded-For] header, if
    any, and [request.client.host] when [request.client] is not [None]. *)
Record Request : Type := mkRequest {
  x_forwarded_for : option string;
  client_host : option string
}.

Definition _get_client_ip (request : Request) : string :=
  match x_forwarded_for request with
  | Some (String _ _ as forwarded) => strip (first_field forwarded)
  | _ => default "unknown" (client_host request)
  end.

(** ** [verify_api_key] (lines 76-87) *)

Record HTTPException : Type := mkHTTPException {
  status_code : Z;
  detail : string
}.

(** A call either returns or raises an [HTTPException]. *)
Inductive outcome (A : Type) : Type :=
  | Return (a : A)
  | Raise (e : HTTPException).
Arguments Return {A} a.
Arguments Raise {A} e.

(** The three results of the dependency, named as in the specification. *)
Definition Allow : outcome unit := Return tt.
Definition Lockout : outcome unit :=
  Raise (mkHTTPException 429 "Too many failed attempts. Try again later.").
Definition Reject : outcome unit :=
  Raise (mkHTTPException 401 "Invalid or missing API key.").

(** [API_KEY] is [os.environ.get("API_KEY")]; [key] is the value of the
    [X-API-Key] header or [None]; [t_check] and [t_fail] are the clock
    readings inside [_is_blocked] and [_record_failure]. *)
Definition verify_api_key (API_KEY : option string) (request : Request)
    (key : option string) (t_check t_fail : float) (w : World)
    : outcome unit * World :=
  match API_KEY with
  | None => (Allow, w)
  | Some secret =>
      let ip := _get_client_ip request in
      let '(blocked, w1) := _is_blocked t_check ip w in
      if blocked then (Lockout, w1)
      else if negb (bool_decide (key = Some secret))
           then (Reject, _record_failure t_fail ip w1)
           else (Allow, w1)
  end.

(** ** The upload and the processing thread *)

(** [file.content_type] is a [str] or [None]; [stream] lists what the
    successive calls [await file.read(READ_SIZE)] return.  Once the list is
    used up every further read returns [b""]. *)
Record UploadFile : Type := mkUploadFile {
  content_type : option string;
  stream : list bytes
}.

(** Where an exception raised inside the [try] block stands in Python's
    class hierarchy, which is all the [except] clauses look at. *)
Inductive ExcClass : Type :=
  | TimeoutErrorClass      (* an instance of TimeoutError *)
  | ExceptionClass         (* an instance of Exception, not of TimeoutError *)
  | BaseExceptionClass.    (* a BaseException that is not an Exception *)

Record Exc : Type := mkExc {
  exc_class : ExcClass;
  exc_str : string         (* str(e) *)
}.

(** What a call of [_process_image] does: it returns the PNG bytes or it
    raises.  The function itself (PIL, cairosvg and the model) is a
    parameter [work] of the handler. *)
Inductive work_result : Type :=
  | Returned (result_bytes : bytes)
  | Raised (e : Exc).

(** What [anyio] hands to the awaiting handler: the outcome of the thread,
    or the [TimeoutError] that [fail_after] raises.  Which one is decided
    by the event loop and is an input here. *)
Inductive Delivery : Type :=
  | WorkFirst
  | DeadlineFirst.

(** The body of the [try] statement (lines 149-152). *)
Definition try_body (d : Delivery) (work : bytes -> string -> work_result)
    (image_bytes : bytes) (ct : string) : work_result :=
  match d with
  | WorkFirst => work image_bytes ct
  | DeadlineFirst => Raised (mkExc TimeoutErrorClass "")
  end.

(** ** The read loop of [remove_bg] (lines 136-145) *)

Definition too_large : HTTPException :=
  mkHTTPException 413 "File too large. Max 20 MB.".

Fixpoint read_loop (stream : list bytes) (chunks : list bytes) (total : Z)
    (w : World) : outcome (list bytes) * World :=
  match stream with
  | [] => (Return chunks, emit (FileRead READ_SIZE []) w)
  | chunk :: rest =>
      let w1 := emit (FileRead READ_SIZE chunk) w in
      match chunk with
      | [] => (Return chunks, w1)
      | _ :: _ =>
          let total := (total + Z.of_nat (length chunk))%Z in
          if (MAX_FILE_SIZE <? total)%Z then (Raise too_large, w1)
          else read_loop rest (chunks ++ [chunk]) total w1
      end
  end.

(** ** [remove_bg] (lines 128-164) *)

Inductive Response : Type :=
  | HTTPError (e : HTTPException)
  | StreamingResponse (body : bytes) (media_type : string)
                      (headers : list (string * string))
  | Unhandled (e : Exc).   (* no [except] clause of the handler matched *)

(** [file.content_type in ALLOWED_TYPES]; [None] is no member of a set of
    strings. *)
Definition type_allowed (ct : option string) : bool :=
  match ct with
  | Some t => bool_decide (t ∈ ALLOWED_TYPES)
  | None => false
  end.

(** How an f-string prints a [str] or [None]. *)
Definition py_str (ct : option string) : string := default "None" ct.

(** [file.content_type or ""]. *)
Definition or_empty (ct : option string) : string := default "" ct.

(** The detail of the 415 response.  [allowed_order] is the order in which
    [', '.join(ALLOWED_TYPES)] meets the members of the set; Python fixes it
    per process, not in the source. *)
Definition unsupported_detail (allowed_order : list string)
    (ct : option string) : string :=
  "Unsupported file type: " +:+ py_str ct +:+ ". Allowed: "
    +:+ String.concat ", " allowed_order.

Definition timed_out_message (INFERENCE_TIMEOUT : Z) : string :=
  "Inference timed out after " +:+ pretty INFERENCE_TIMEOUT +:+ "s".

Definition ok_response (result_bytes : bytes) : Response :=
  StreamingResponse result_bytes "image/png"
    [("Content-Disposition", "attachment; filename=no-bg.png")].

(** Lines 136-146: the loop and [b"".join(chunks)]. *)
Definition read_upload (stream : list bytes) (w : World)
    : outcome bytes * World :=
  match read_loop stream [] 0 w with
  | (Raise e, w1) => (Raise e, w1)
  | (Return chunks, w1) => (Return (concat chunks), w1)
  end.

Definition remove_bg (INFERENCE_TIMEOUT : Z) (allowed_order : list string)
    (work : bytes -> string -> work_result) (d : Delivery)
    (file : UploadFile) (w : World) : Response * World :=
  if negb (type_allowed (content_type file)) then
    (HTTPError (mkHTTPException 415
                  (unsupported_detail allowed_order (content_type file))), w)
  else
    match read_upload (stream file) w with
    | (Raise e, w1) => (HTTPError e, w1)
    | (Return image_bytes, w1) =>
        let ct := or_empty (content_type file) in
        let w2 := emit (Offload image_bytes ct) w1 in
        match try_body d work image_bytes ct with
        | Returned result_bytes => (ok_response result_bytes, w2)
        | Raised e =>
            match exc_class e with
            | TimeoutErrorClass =>
                (HTTPError (mkHTTPException 504 "Processing timed out."),
                 emit (LogError (timed_out_message INFERENCE_TIMEOUT)) w2)
            | ExceptionClass =>
                (HTTPError (mkHTTPException 500 "Background removal failed."),
                 emit (LogError ("Inference failed: " +:+ exc_str e)) w2)
            | BaseExceptionClass => (Unhandled e, w2)
            end
        end
    end.

(** ** The route [POST /remove-bg] (line 128)

    For a request whose body FastAPI has parsed and found to hold the
    upload [file]: FastAPI runs the dependency [verify_api_key] and calls
    the handler only when the dependency returns.  The requests that never
    get this far are part of [serve] below. *)
Definition post_remove_bg (API_KEY : option string) (INFERENCE_TIMEOUT : Z)
    (allowed_order : list string) (work : bytes -> string -> work_result)
    (d : Delivery) (request : Request) (key : option string)
    (file : UploadFile) (t_check t_fail : float) (w : World) : Response * World :=
  match verify_api_key API_KEY request key t_check t_fail w with
  | (Raise e, w1) => (HTTPError e, w1)
  | (Return _, w1) =>
      remove_bg INFERENCE_TIMEOUT allowed_order work d file w1
  end.

(** ** The route as FastAPI serves it

    FastAPI reads and parses the body of a request before it runs the
    dependencies of the route, and it checks the parameters of the handler
    after them.  A body that cannot be parsed is answered 400 whatever else
    the request carries; a request without a usable field [file] is
    answered 422 if the dependency lets it through. *)
Inductive Body : Type :=
  | Unparsable                 (* reading or parsing the form raised *)
  | NoFile                     (* parsed; no upload in the field [file] *)
  | Upload (file : UploadFile).

Inductive Served : Type :=
  | BadRequest                 (* 400, from the parser *)
  | Unprocessable              (* 422, from the check of the parameters *)
  | Responded (r : Response).

Definition serve (API_KEY : option string) (INFERENCE_TIMEOUT : Z)
    (allowed_order : list string) (work : bytes -> string -> work_result)
    (d : Delivery) (request : Request) (key : option string) (body : Body)
    (t_check t_fail : float) (w : World) : Served * World :=
  match body with
  | Unparsable => (BadRequest, w)
  | NoFile =>
      match verify_api_key API_KEY request key t_check t_fail w with
      | (Raise e, w1) => (Responded (HTTPError e), w1)
      | (Return _, w1) => (Unprocessable, w1)
      end
  | Upload file =>
      let '(r, w1) :=
        post_remove_bg API_KEY INFERENCE_TIMEOUT allowed_order work d
                       request key file t_check t_fail w in
      (Responded r, w1)
  end.

(** ** The deadline, as anyio applies it

    [anyio.to_thread.run_sync] is called without [abandon_on_cancel] (line
    150).  Until the thread is started, which takes [waited] seconds (the
    first checkpoint, then the wait for a free worker), the call can be
    cancelled by the deadline of [fail_after], and [fail_after] then raises
    its [TimeoutError]; a timeout of zero or less has passed at once.
    After that anyio waits for the thread inside a shielded cancel scope,
    which the deadline does not interrupt, and [fail_after] raises only
    when its scope has caught a cancellation.  So once the thread runs, the
    handler gets what the thread returns or raises, however long that
    takes.  With [abandon_on_cancel=True] a wait that outlasts the deadline
    is cancelled and the outcome of the thread is dropped.  [timeout],
    [waited] and [took], the time the thread runs, are in seconds. *)
Definition run_sync_delivery (abandon_on_cancel : bool)
    (timeout waited took : Z) : Delivery :=
  if (timeout <=? waited)%Z then DeadlineFirst
  else if abandon_on_cancel && (timeout <? waited + took)%Z then DeadlineFirst
  else WorkFirst.

(** The handler for a request whose thread starts after [waited] seconds and
    runs for [took] seconds, with the arguments that line 150 passes. *)
Definition remove_bg_timed (INFERENCE_TIMEOUT : Z)
    (allowed_order : list string) (work : bytes -> string -> work_result)
    (waited took : Z) (file : UploadFile) (w : World) : Response * World :=
  remove_bg INFERENCE_TIMEOUT allowed_order work
            (run_sync_delivery false INFERENCE_TIMEOUT waited took) file w.

(** ** [app/model.py] *)

(** A call returns a value or raises an exception. *)
Inductive result (A : Type) : Type :=
  | Ok (a : A)
  | Err (e : Exc).
Arguments Ok {A} a.
Arguments Err {A} e.

Definition bind {A B : Type} (r : result A) (k : A -> result B) : result B :=
  match r with
  | Ok a => k a
  | Err e => Err e
  end.

Notation "'do' x <- r ;; k" := (bind r (fun x => k))
  (at level 10, x name, r at level 99, k at level 200).

(** The module-level variable [_model] and what [logger.info] wrote,
    oldest first.  [M] is the type of the loaded model. *)
Record ModelState (M : Type) : Type := mkModelState {
  _model : option M;
  info_log : list string
}.
Arguments mkModelState {M} _ _.
Arguments _model {M} _.
Arguments info_log {M} _.

(** Nothing is loaded when the module is imported. *)
Definition model_init {M : Type} : ModelState M := mkModelState None [].

(** [load_model] (lines 9-15).  [opensource] is what the call
    [WithoutBG.opensource()] does if it is made: it returns a model or it
    raises. *)
Definition load_model {M : Type} (opensource : result M) (s : ModelState M)
    : result M * ModelState M :=
  match _model s with
  | None =>
      match opensource with
      | Ok m =>
          (Ok m, mkModelState (Some m)
                   (info_log s ++ ["Loading model..."; "Model ready."]))
      | Err e => (Err e, mkModelState None (info_log s ++ ["Loading model..."]))
      end
  | Some m => (Ok m, s)
  end.

(** [get_model] (lines 18-21); [RuntimeError] is an [Exception]. *)
Definition get_model {M : Type} (s : ModelState M) : result M :=
  match _model s with
  | None => Err (mkExc ExceptionClass "Model not loaded.")
  | Some m => Ok m
  end.

(** ** [_process_image] ([main.py], lines 107-120) *)

(** The library calls of [_process_image], each of which returns or raises:
    [svg2png] is [import cairosvg] followed by
    [cairosvg.svg2png(bytestring=...)]; [open_rgb] is
    [Image.open(io.BytesIO(...)).convert("RGB")]; [remove_background] is the
    method of the model; [save_png] is [result.save(buf, format="PNG")]
    followed by [buf.getvalue()]. *)
Record Libraries (M Image : Type) : Type := mkLibraries {
  svg2png : bytes -> result bytes;
  open_rgb : bytes -> result Image;
  remove_background : M -> Image -> result Image;
  save_png : Image -> result bytes
}.
Arguments mkLibraries {M Image} _ _ _ _.
Arguments svg2png {M Image} _ _.
Arguments open_rgb {M Image} _ _.
Arguments remove_background {M Image} _ _ _.
Arguments save_png {M Image} _ _.

Definition _process_image {M Image : Type} (lib : Libraries M Image)
    (s : ModelState M) (image_bytes : bytes) (content_type : string)
    : result bytes :=
  do model <- get_model s ;;
  do input_image <-
    (if String.eqb content_type "image/svg+xml"
     then (do png_data <- svg2png lib image_bytes ;; open_rgb lib png_data)
     else open_rgb lib image_bytes) ;;
  do result <- remove_background lib model input_image ;;
  save_png lib result.

(** The lambda handed to the thread (line 151), as the handler sees it. *)
Definition process_work {M Image : Type} (lib : Libraries M Image)
    (s : ModelState M) : bytes -> string -> work_result :=
  fun image_bytes ct =>
    match _process_image lib s image_bytes ct with
    | Ok result_bytes => Returned result_bytes
    | Err e => Raised e
    end.

(** [lifespan] (lines 90-93): the model is loaded before the first request
    is served; the application starts only if [load_model] returns. *)
Definition lifespan {M : Type} (opensource : result M) (s : ModelState M)
    : result unit * ModelState M :=
  match load_model opensource s with
  | (Ok _, s1) => (Ok tt, s1)
  | (Err e, s1) => (Err e, s1)
  end.

(** ** [CORS_ORIGINS] ([main.py], lines 25 and 98) *)

(** [s.split(",")]. *)
Fixpoint split_comma (s : string) : list string :=
  match s with
  | EmptyString => [EmptyString]
  | String c r =>
      if Ascii.eqb c ","%char then EmptyString :: split_comma r
      else match split_comma r with
           | [] => [String c EmptyString]
           | x :: xs => String c x :: xs
           end
  end.

(** Line 25; [env] is [os.environ.get("CORS_ORIGINS")]. *)
Definition CORS_ORIGINS (env : option string) : list string :=
  match env with
  | Some (String _ _ as v) => split_comma v
  | _ => []
  end.

(** The test [if CORS_ORIGINS:] of line 98, under which the CORS middleware
    is added. *)
Definition cors_middleware_added (env : option string) : bool :=
  match CORS_ORIGINS env with
  | [] => false
  | _ :: _ => true
  end.

(** ** Vocabulary of the statements *)

(** The world [w] after the events [es]. *)
Definition add_events (es : list Event) (w : World) : World :=
  mkWorld (_failed_attempts w) (_blocked_ips w) (events w ++ es).

(** The events of reads that returned the chunks [cs], in order. *)
Definition reads (cs : list bytes) : list Event :=
  List.map (FileRead READ_SIZE) cs.

(** The read that finds the stream at its end. *)
Definition last_read : Event := FileRead READ_SIZE [].

(** The number of bytes in the chunks [cs]. *)
Definition size_of (cs : list bytes) : Z := Z.of_nat (length (concat cs)).

(** The string [t] occurs in the string [s]. *)
Definition occurs_in (t s : string) : Prop :=
  exists pre post, s = pre +:+ t +:+ post.

(** The string [s] holds a comma. *)
Fixpoint has_comma (s : string) : bool :=
  match s with
  | EmptyString => false
  | String c r => Ascii.eqb c ","%char || has_comma r
  end.

(** Every character of [s] is white space. *)
Fixpoint all_space (s : string) : bool :=
  match s with
  | EmptyString => true
  | String c r => py_isspace c && all_space r
  end.

(** The string [s] is empty or starts with a character that is no white
    space. *)
Definition starts_black (s : string) : Prop :=
  match s with
  | EmptyString => True
  | String c _ => py_isspace c = false
  end.

(** ** Sample inputs *)

(** A world in which ["1.2.3.4"] has failed four times, at seconds 1 to 4. *)
Definition four_failures : World :=
  mkWorld {[ "1.2.3.4" := [1; 2; 3; 4] ]} ∅ [].

(** A world in which ["1.2.3.4"] failed once, at the reading nearest to
    0.3 seconds. *)
Definition one_failure_at_0_3 : World :=
  mkWorld {[ "1.2.3.4" := [0.3] ]} ∅ [].

(** A world in which ["1.2.3.4"] is locked out since that reading. *)
Definition blocked_at_0_3 : World :=
  mkWorld {[ "1.2.3.4" := [0.1; 0.1; 0.2; 0.2; 0.3] ]}
          {[ "1.2.3.4" := 0.3 ]} [].

(** The same client, blocked at second 5 by its fifth failure. *)
Definition blocked_at_five : World := _record_failure 5 "1.2.3.4" four_failures.

(** A request from ["1.2.3.4"] that carries no [X-Forwarded-For] header. *)
Definition request_1234 : Request := mkRequest None (Some "1.2.3.4").

(** An upload of three bytes that arrives in two chunks. *)
Definition two_chunks : list bytes := [["a"; "b"]; ["c"]]%byte.

(** The members of [ALLOWED_TYPES] in the order of the source text. *)
Definition source_order : list string :=
  [ "image/jpeg"; "image/png"; "image/webp";
    "image/gif"; "image/avif"; "image/svg+xml" ].

(** A processing function that fails to decode its input. *)
Definition work_fails : bytes -> string -> work_result :=
  fun _ _ => Raised (mkExc ExceptionClass "cannot identify image file").

(** A processing function that runs into a timeout of its own, such as a
    read from the network that the operating system gives up on. *)
Definition work_times_out : bytes -> string -> work_result :=
  fun _ _ => Raised (mkExc TimeoutErrorClass "timed out").

Definition bmp_upload : UploadFile := mkUploadFile (Some "image/bmp") two_chunks.
Definition jpeg_upload : UploadFile := mkUploadFile (Some "image/jpeg") two_chunks.

(** The world after [jpeg_upload] was read to its end from [world_init]. *)
Definition after_jpeg_read : World :=
  add_events (reads two_chunks ++ [last_read]) world_init.

(** The calls of [verify_api_key] for one client that presents [key] at each
    of the clock readings [times], one request after the other; a request
    reads the clock at most twice and both readings are the same here. *)
Fixpoint replay (API_KEY : option string) (request : Request)
    (key : option string) (times : list float) (w : World) : World :=
  match times with
  | [] => w
  | t :: times' =>
      replay API_KEY request key times'
             (snd (verify_api_key API_KEY request key t t w))
  end.

(** Five requests with a wrong key, at seconds 1 to 5, in a fresh process. *)
Definition five_wrong_keys : World :=
  replay (Some "s3cret") request_1234 (Some "guess") [1; 2; 3; 4; 5] world_init.

(** A processing function that answers with a two-byte image. *)
Definition work_succeeds : bytes -> string -> work_result :=
  fun _ _ => Returned ["P"; "N"]%byte.

(** The world after one request with a wrong key, at second 1, in a fresh
    process. *)
Definition after_one_wrong_key : World :=
  snd (post_remove_bg (Some "s3cret") 120 source_order work_succeeds
         WorkFirst request_1234 (Some "guess") jpeg_upload 1 1 world_init).

(** Failures at [times], after one at [prev], each at least
    [ATTEMPT_WINDOW] after the one before: the test [t - prev < 60] of the
    program fails. *)
Fixpoint spaced (prev : float) (times : list float) : Prop :=
  match times with
  | [] => True
  | t :: times' => (t - prev <? ATTEMPT_WINDOW) = false /\ spaced t times'
  end.

(** The chunks of a stream before its first empty one: an empty read is how
    the loop learns that the stream is at its end. *)
Fixpoint until_empty (stream : list bytes) : list bytes :=
  match stream with
  | [] => []
  | [] :: _ => []
  | chunk :: rest => chunk :: until_empty rest
  end.

(** The number of bytes that the reads among the events [es] returned. *)
Fixpoint bytes_read (es : list Event) : Z :=
  match es with
  | [] => 0
  | FileRead _ chunk :: es' => Z.of_nat (length chunk) + bytes_read es'
  | _ :: es' => bytes_read es'
  end.

(** The events [es] start no processing. *)
Definition no_offload (es : list Event) : Prop :=
  forall image_bytes ct, ~ In (Offload image_bytes ct) es.

(** Libraries over one-byte images that invert, tag and copy. *)
Definition toy_libraries : Libraries unit bytes :=
  mkLibraries (fun svg => Ok ("P"%byte :: svg))
              (fun b => Ok b)
              (fun _ image => Ok (List.rev image))
              (fun image => Ok image).

(** ** The worlds a running server can be in *)

(** The worlds a process with the given [API_KEY] reaches from start-up by
    serving requests to [POST /remove-bg], whatever they carry and whenever
    they come. *)
Inductive reachable (API_KEY : option string) : World -> Prop :=
  | reachable_init : reachable API_KEY world_init
  | reachable_request (w : World) (INFERENCE_TIMEOUT : Z)
      (allowed_order : list string) (work : bytes -> string -> work_result)
      (d : Delivery) (request : Request) (key : option string)
      (file : UploadFile) (t_check t_fail : float) :
      reachable API_KEY w ->
      reachable API_KEY
        (snd (post_remove_bg API_KEY INFERENCE_TIMEOUT allowed_order work d
                             request key file t_check t_fail w)).

(** What the two dictionaries have in common in every reachable world: an
    attempt record holds between one and [MAX_FAILED_ATTEMPTS] timestamps,
    and an identity has a lockout record exactly when its attempt record is
    full, the lockout being the last timestamp of the record. *)
Definition tracker_inv (w : World) : Prop :=
  (forall ip l, _failed_attempts w !! ip = Some l ->
      (1 <= length l <= MAX_FAILED_ATTEMPTS)%nat
      /\ (length l = MAX_FAILED_ATTEMPTS -> _blocked_ips w !! ip = last l))
  /\ (forall ip t, _blocked_ips w !! ip = Some t ->
        exists l, _failed_attempts w !! ip = Some l
                  /\ length l = MAX_FAILED_ATTEMPTS /\ last l = Some t).

(** * The attempt tracker *)

Section Tracker.

Implicit Types (ip : string) (w : World) (now since : float).

Lemma in_window_In now (l : list float) (t : float) :
  In t (in_window now l) <-> In t l /\ (now - t <? ATTEMPT_WINDOW) = true.
Proof.
  unfold in_window. rewrite List.filter_In. reflexivity.
Qed.

Lemma in_window_idem now (l : list float) :
  in_window now (in_window now l) = in_window now l.
Proof.
  unfold in_window. induction l as [|t l IH]; simpl; [reflexivity|].
  destruct ((now - t <? ATTEMPT_WINDOW)) eqn:E; simpl.
  - rewrite E, IH. reflexivity.
  - exact IH.
Qed.

Lemma is_blocked_live now ip w since :
  _blocked_ips w !! ip = Some since ->
  (now - since <? BLOCK_DURATION) = true ->
  _is_blocked now ip w = (true, w).
Proof.
  intros Hl Hlt. unfold _is_blocked. rewrite Hl.
  rewrite Hlt. reflexivity.
Qed.

Lemma is_blocked_expired now ip w since :
  _blocked_ips w !! ip = Some since ->
  (now - since <? BLOCK_DURATION) = false ->
  _is_blocked now ip w =
    (false, mkWorld (delete ip (_failed_attempts w))
                    (delete ip (_blocked_ips w)) (events w)).
Proof.
  intros Hl Hge. unfold _is_blocked. rewrite Hl.
  rewrite Hge. reflexivity.
Qed.

Lemma is_blocked_absent now ip w :
  _blocked_ips w !! ip = None -> _is_blocked now ip w = (false, w).
Proof. intros Hl. unfold _is_blocked. rewrite Hl. reflexivity. Qed.

Lemma is_blocked_true_iff now ip w :
  fst (_is_blocked now ip w) = true <->
  exists since, _blocked_ips w !! ip = Some since
                /\ (now - since <? BLOCK_DURATION) = true.
Proof.
  destruct (_blocked_ips w !! ip) as [since|] eqn:Hl.
  - destruct (now - since <? BLOCK_DURATION) eqn:Htest.
    + rewrite (is_blocked_live now ip w since Hl Htest). simpl.
      split; [intros _; exists since; auto | reflexivity].
    + rewrite (is_blocked_expired now ip w since Hl Htest). simpl.
      split; [discriminate|].
      intros (since' & Heq & Hlt). injection Heq as <-. congruence.
  - rewrite (is_blocked_absent now ip w Hl). simpl.
    split; [discriminate|]. intros (since' & Heq & _). discriminate.
Qed.

Lemma record_failure_attempts now ip w :
  _failed_attempts (_record_failure now ip w) !! ip
  = Some (attempts_after now ip w).
Proof.
  unfold _record_failure.
  destruct (MAX_FAILED_ATTEMPTS <=? _)%nat; simpl; apply lookup_insert_eq.
Qed.

Lemma record_failure_locks now ip w :
  (MAX_FAILED_ATTEMPTS <= length (attempts_after now ip w))%nat ->
  _blocked_ips (_record_failure now ip w) = <[ip := now]> (_blocked_ips w).
Proof.
  intros H. unfold _record_failure.
  apply Nat.leb_le in H. rewrite H. reflexivity.
Qed.

Lemma record_failure_below now ip w :
  (length (attempts_after now ip w) < MAX_FAILED_ATTEMPTS)%nat ->
  _blocked_ips (_record_failure now ip w) = _blocked_ips w.
Proof.
  intros H. unfold _record_failure.
  apply Nat.leb_gt in H. rewrite H. reflexivity.
Qed.

Lemma attempts_after_length now ip w :
  length (attempts_after now ip w)
  = (length (in_window now (stored_attempts ip w)) + 1)%nat.
Proof. unfold attempts_after. rewrite length_app. reflexivity. Qed.

Lemma record_failure_failed now ip w :
  _failed_attempts (_record_failure now ip w)
  = <[ip := attempts_after now ip w]> (_failed_attempts w).
Proof.
  unfold _record_failure.
  destruct (MAX_FAILED_ATTEMPTS <=? _)%nat; reflexivity.
Qed.

Lemma record_failure_blocked now ip w :
  _blocked_ips (_record_failure now ip w)
  = (if (MAX_FAILED_ATTEMPTS
           <=? length (in_window now (stored_attempts ip w)) + 1)%nat
     then <[ip := now]> (_blocked_ips w)
     else _blocked_ips w).
Proof.
  destruct (MAX_FAILED_ATTEMPTS <=? _)%nat eqn:E.
  - apply record_failure_locks. rewrite attempts_after_length.
    apply Nat.leb_le. exact E.
  - apply record_failure_below. rewrite attempts_after_length.
    apply Nat.leb_gt. exact E.
Qed.

Lemma record_failure_pruned now ip w :
  _record_failure now ip
    (mkWorld (<[ip := in_window now (stored_attempts ip w)]>
                (_failed_attempts w))
             (_blocked_ips w) (events w))
  = _record_failure now ip w.
Proof.
  unfold _record_failure, attempts_after, stored_attempts. simpl.
  rewrite lookup_insert_eq. simpl. rewrite in_window_idem.
  rewrite !insert_insert_eq. reflexivity.
Qed.

End Tracker.

(** C1.  The time elapsed since a clock reading [since] is, here as in the
    program, the binary64 difference [now - since] of the two readings.
    When [_record_failure] at [t0] finds four or more stored failures of
    [ip] that pass the test [t0 - t < 60], so that this failure is the
    fifth or later inside the window, the lockout record of [ip] becomes
    [t0].  From then on, and in any world, [_is_blocked] answers [True]
    exactly when a lockout record of [ip] exists and the elapsed time
    passes the test [now - since < 900]; while it does, the world is left as
    it is; the call at which the test fails answers [False] and deletes
    both the lockout record and the attempt record of [ip], and nothing
    else. *)
Theorem lockout_lifecycle (ip : string) (w : World) (t0 : float) :
  (5 <= length (List.filter (fun t => (t0 - t <? 60)%float)
                            (default [] (_failed_attempts w !! ip))) + 1)%nat ->
  _blocked_ips (_record_failure t0 ip w) !! ip = Some t0
  /\ (forall now w',
        fst (_is_blocked now ip w') = true <->
        exists since, _blocked_ips w' !! ip = Some since
                      /\ (now - since <? 900) = true)
  /\ (forall now,
        (now - t0 <? 900) = true ->
        _is_blocked now ip (_record_failure t0 ip w)
        = (true, _record_failure t0 ip w))
  /\ (forall now w' since,
        _blocked_ips w' !! ip = Some since ->
        (now - since <? 900) = false ->
        exists w'',
          _is_blocked now ip w' = (false, w'')
          /\ _blocked_ips w'' !! ip = None
          /\ _failed_attempts w'' !! ip = None
          /\ (forall ip', ip' <> ip ->
                _blocked_ips w'' !! ip' = _blocked_ips w' !! ip'
                /\ _failed_attempts w'' !! ip' = _failed_attempts w' !! ip')
          /\ events w'' = events w').
Proof.
  intros Hcount.
  assert (Hlock : _blocked_ips (_record_failure t0 ip w) !! ip = Some t0).
  { rewrite record_failure_locks.
    - apply lookup_insert_eq.
    - rewrite attempts_after_length. exact Hcount. }
  split; [exact Hlock|].
  split; [intros now w'; apply is_blocked_true_iff|].
  split.
  - intros now Hlt. exact (is_blocked_live now ip _ t0 Hlock Hlt).
  - intros now w' since Hl Hge.
    eexists. split; [exact (is_blocked_expired now ip w' since Hl Hge)|].
    simpl. repeat split.
    + apply lookup_delete_eq.
    + apply lookup_delete_eq.
    + apply lookup_delete_ne. congruence.
    + apply lookup_delete_ne. congruence.
Qed.

Lemma lockout_lifecycle_witness :
  _blocked_ips (_record_failure 5 "1.2.3.4" four_failures) !! "1.2.3.4"
  = Some 5
  /\ fst (_is_blocked 904 "1.2.3.4" (_record_failure 5 "1.2.3.4" four_failures))
     = true
  /\ fst (_is_blocked 905 "1.2.3.4" (_record_failure 5 "1.2.3.4" four_failures))
     = false
  /\ fst (_is_blocked 900.3 "1.2.3.4" blocked_at_0_3) = false.
Proof.
  destruct (lockout_lifecycle "1.2.3.4" four_failures 5) as (H1 & _ & H3 & H4).
  - vm_compute. lia.
  - split; [exact H1|]. split; [|split].
    + rewrite (H3 904); [reflexivity | reflexivity].
    + destruct (H4 905 (_record_failure 5 "1.2.3.4" four_failures) 5 H1)
        as (w'' & -> & _); reflexivity.
    + destruct (H4 900.3 blocked_at_0_3 0.3) as (w'' & -> & _); reflexivity.
Defined.

(** C2.  [_record_failure] at [now] replaces the attempt record of [ip] by
    the stored timestamps [t] that pass the test [now - t < 60], in their
    order, followed by [now]; the difference is the binary64 one the
    program computes.  So a stored failure stays exactly when it passes the
    test, the lockout is decided by the number of those that stay plus one
    against the threshold of five, and the call does what it would do on a
    record from which the others were already gone. *)
Theorem record_failure_sliding_window (now : float) (ip : string) (w : World) :
  let old := default [] (_failed_attempts w !! ip) in
  let kept := List.filter (fun t => (now - t <? 60)%float) old in
  _failed_attempts (_record_failure now ip w)
  = <[ip := kept ++ [now]]> (_failed_attempts w)
  /\ (forall t, In t kept <-> In t old /\ (now - t <? 60) = true)
  /\ _blocked_ips (_record_failure now ip w)
     = (if (5 <=? length kept + 1)%nat
        then <[ip := now]> (_blocked_ips w)
        else _blocked_ips w)
  /\ _record_failure now ip
       (mkWorld (<[ip := kept]> (_failed_attempts w))
                (_blocked_ips w) (events w))
     = _record_failure now ip w.
Proof.
  cbv zeta. split; [|split; [|split]].
  - exact (record_failure_failed now ip w).
  - intros t. exact (in_window_In now (stored_attempts ip w) t).
  - exact (record_failure_blocked now ip w).
  - exact (record_failure_pruned now ip w).
Qed.

Lemma record_failure_sliding_window_witness :
  _failed_attempts (_record_failure 60.3 "1.2.3.4" one_failure_at_0_3)
  = {[ "1.2.3.4" := [60.3] ]}
  /\ _failed_attempts (_record_failure 60.2 "1.2.3.4" one_failure_at_0_3)
     = {[ "1.2.3.4" := [0.3; 60.2] ]}
  /\ _blocked_ips (_record_failure 5 "1.2.3.4" four_failures)
     = {[ "1.2.3.4" := 5 ]}.
Proof.
  split; [|split].
  - rewrite (proj1 (record_failure_sliding_window 60.3 "1.2.3.4"
                      one_failure_at_0_3)).
    vm_compute. reflexivity.
  - rewrite (proj1 (record_failure_sliding_window 60.2 "1.2.3.4"
                      one_failure_at_0_3)).
    vm_compute. reflexivity.
  - rewrite (proj1 (proj2 (proj2 (record_failure_sliding_window 5 "1.2.3.4"
                                    four_failures)))).
    vm_compute. reflexivity.
Defined.

(** * The authenticator *)

Lemma verify_api_key_blocked (secret : string) (request : Request)
    (key : option string) (since t_check t_fail : float) (w : World) :
  _blocked_ips w !! _get_client_ip request = Some since ->
  (t_check - since <? BLOCK_DURATION) = true ->
  verify_api_key (Some secret) request key t_check t_fail w = (Lockout, w).
Proof.
  intros Hl Hlt. unfold verify_api_key.
  rewrite (is_blocked_live _ _ _ _ Hl Hlt). reflexivity.
Qed.

(** C3.  With a secret configured, a request whose identity is blocked
    when it is checked, that is, has a lockout record [since] for which the
    program's test [t_check - since < 900] on binary64 readings passes,
    raises the 429 exception whatever key it carries, the configured secret
    included; the world is left as it is, so no failure is recorded, and
    the route answers 429 without entering the handler. *)
Theorem blocked_identity_gets_lockout (secret : string) (request : Request)
    (key : option string) (since t_check t_fail : float) (w : World) :
  _blocked_ips w !! _get_client_ip request = Some since ->
  (t_check - since <? 900) = true ->
  verify_api_key (Some secret) request key t_check t_fail w
  = (Raise (mkHTTPException 429 "Too many failed attempts. Try again later."),
     w)
  /\ verify_api_key (Some secret) request (Some secret) t_check t_fail w
     = verify_api_key (Some secret) request key t_check t_fail w
  /\ (forall INFERENCE_TIMEOUT allowed_order work d file,
        post_remove_bg (Some secret) INFERENCE_TIMEOUT allowed_order work d
                       request key file t_check t_fail w
        = (HTTPError (mkHTTPException 429
                        "Too many failed attempts. Try again later."), w)).
Proof.
  intros Hl Hlt.
  pose proof (verify_api_key_blocked secret request) as H.
  split; [exact (H key _ _ t_fail _ Hl Hlt)|].
  split.
  - rewrite (H key _ _ t_fail _ Hl Hlt).
    exact (H (Some secret) _ _ t_fail _ Hl Hlt).
  - intros. unfold post_remove_bg.
    rewrite (H key _ _ t_fail _ Hl Hlt). reflexivity.
Qed.

Lemma blocked_identity_gets_lockout_witness :
  verify_api_key (Some "s3cret") request_1234 (Some "s3cret") 6 7
                 blocked_at_five
  = (Raise (mkHTTPException 429 "Too many failed attempts. Try again later."),
     blocked_at_five).
Proof.
  apply (blocked_identity_gets_lockout "s3cret" request_1234
           (Some "s3cret") 5 6 7 blocked_at_five).
  - vm_compute. reflexivity.
  - vm_compute. reflexivity.
Defined.

(** C8.  With no secret configured, [verify_api_key] returns for every
    request, with or without a key, and the route hands every request to
    the handler. *)
Theorem no_secret_allows_everything (request : Request) (key : option string)
    (t_check t_fail : float) (w : World) :
  verify_api_key None request key t_check t_fail w = (Return tt, w)
  /\ (forall INFERENCE_TIMEOUT allowed_order work d file,
        post_remove_bg None INFERENCE_TIMEOUT allowed_order work d
                       request key file t_check t_fail w
        = remove_bg INFERENCE_TIMEOUT allowed_order work d file w).
Proof. split; reflexivity. Qed.

(** C9.  With no secret configured, [verify_api_key] returns the world it
    was given, both dictionaries included, and its result is the same in
    every world: an identity that [_is_blocked] would report as blocked is
    allowed through. *)
Theorem no_secret_leaves_tracker_untouched (request : Request)
    (key : option string) (t_check t_fail : float) (w : World) :
  snd (verify_api_key None request key t_check t_fail w) = w
  /\ (forall w',
        fst (verify_api_key None request key t_check t_fail w')
        = fst (verify_api_key None request key t_check t_fail w))
  /\ (forall since,
        _blocked_ips w !! _get_client_ip request = Some since ->
        (t_check - since <? BLOCK_DURATION) = true ->
        fst (_is_blocked t_check (_get_client_ip request) w) = true
        /\ verify_api_key None request key t_check t_fail w = (Allow, w)).
Proof.
  split; [reflexivity|]. split; [reflexivity|].
  intros since Hl Hlt. split; [|reflexivity].
  rewrite (is_blocked_live _ _ _ _ Hl Hlt). reflexivity.
Qed.

(** * The upload limiter *)

Section Upload.

Local Open Scope Z_scope.

Lemma emit_add_events (e : Event) (w : World) : emit e w = add_events [e] w.
Proof. reflexivity. Qed.

Lemma add_events_app (es es' : list Event) (w : World) :
  add_events es' (add_events es w) = add_events (es ++ es') w.
Proof. unfold add_events. simpl. rewrite <- app_assoc. reflexivity. Qed.

Lemma size_of_nil : size_of [] = 0.
Proof. reflexivity. Qed.

Lemma size_of_cons (c : bytes) (cs : list bytes) :
  size_of (c :: cs) = Z.of_nat (length c) + size_of cs.
Proof. unfold size_of. simpl. rewrite length_app. lia. Qed.

Lemma size_of_app (cs cs' : list bytes) :
  size_of (cs ++ cs') = size_of cs + size_of cs'.
Proof.
  unfold size_of. rewrite concat_app, length_app. lia.
Qed.

Lemma size_of_nonneg (cs : list bytes) : 0 <= size_of cs.
Proof. unfold size_of. lia. Qed.

(** One turn of the loop on a chunk that is not empty. *)
Lemma read_loop_step (c : bytes) (rest acc : list bytes) (total : Z)
    (w : World) :
  c <> [] ->
  read_loop (c :: rest) acc total w =
    if MAX_FILE_SIZE <? total + Z.of_nat (length c)
    then (Raise too_large, add_events (reads [c]) w)
    else read_loop rest (acc ++ [c]) (total + Z.of_nat (length c))
                   (add_events (reads [c]) w).
Proof.
  intros Hc. destruct c as [|b c]; [congruence|]. reflexivity.
Qed.

(** The loop runs to the end of a stream that fits. *)
Lemma read_loop_fits (stream : list bytes) :
  Forall (fun c => c <> []) stream ->
  forall (acc : list bytes) (total : Z) (w : World),
    total + size_of stream <= MAX_FILE_SIZE ->
    read_loop stream acc total w
    = (Return (acc ++ stream), add_events (reads stream ++ [last_read]) w).
Proof.
  induction 1 as [|c rest Hc _ IH]; intros acc total w Hfit.
  - simpl. rewrite app_nil_r. reflexivity.
  - rewrite size_of_cons in Hfit. pose proof (size_of_nonneg rest).
    rewrite (read_loop_step c rest acc total w Hc).
    destruct (Z.ltb_spec MAX_FILE_SIZE (total + Z.of_nat (length c)));
      [lia|].
    rewrite IH by lia. rewrite add_events_app, <- app_assoc. reflexivity.
Qed.

(** The loop stops at the first chunk that takes the total over the limit. *)
Lemma read_loop_overflows (stream : list bytes) :
  Forall (fun c => c <> []) stream ->
  forall (acc : list bytes) (total : Z) (w : World),
    total <= MAX_FILE_SIZE ->
    MAX_FILE_SIZE < total + size_of stream ->
    exists pre c post,
      stream = pre ++ c :: post
      /\ total + size_of pre <= MAX_FILE_SIZE
      /\ MAX_FILE_SIZE < total + size_of (pre ++ [c])
      /\ read_loop stream acc total w
         = (Raise too_large, add_events (reads (pre ++ [c])) w).
Proof.
  induction 1 as [|c rest Hc _ IH]; intros acc total w Hle Hover.
  - rewrite size_of_nil in Hover. lia.
  - rewrite size_of_cons in Hover.
    rewrite (read_loop_step c rest acc total w Hc).
    destruct (Z.ltb_spec MAX_FILE_SIZE (total + Z.of_nat (length c)))
      as [Hbig|Hsmall].
    + exists [], c, rest. simpl. rewrite size_of_nil.
      rewrite size_of_cons, size_of_nil.
      repeat split; [lia | lia].
    + destruct (IH (acc ++ [c]) (total + Z.of_nat (length c))
                   (add_events (reads [c]) w))
        as (pre & c' & post & -> & Hpre & Hc' & Heq); [lia | lia |].
      exists (c :: pre), c', post.
      rewrite Heq, add_events_app.
      simpl. rewrite !size_of_cons in *.
      repeat split; [lia | lia].
Qed.

End Upload.

(** C4.  Let the reads of the upload return the chunks [chunks], none of
    them empty, and then [b""].  When the chunks hold at most
    [MAX_FILE_SIZE] bytes the loop reads all of them and the end of the
    stream and yields their concatenation.  When they hold more, the loop
    raises the 413 exception at the first chunk that takes the running total
    over [MAX_FILE_SIZE], and the reads made are those up to and including
    that chunk; the handler then answers 413 without starting the
    processing.  In particular [MAX_FILE_SIZE] bytes pass and
    [MAX_FILE_SIZE + 1] bytes are refused, however they are cut. *)
Theorem upload_limit (chunks : list bytes) (w : World) :
  Forall (fun c => c <> []) chunks ->
  ((size_of chunks <= MAX_FILE_SIZE)%Z ->
     read_upload chunks w
     = (Return (concat chunks), add_events (reads chunks ++ [last_read]) w))
  /\ ((MAX_FILE_SIZE < size_of chunks)%Z ->
        exists pre c post,
          chunks = pre ++ c :: post
          /\ (size_of pre <= MAX_FILE_SIZE)%Z
          /\ (MAX_FILE_SIZE < size_of (pre ++ [c]))%Z
          /\ read_upload chunks w
             = (Raise (mkHTTPException 413 "File too large. Max 20 MB."),
                add_events (reads (pre ++ [c])) w)
          /\ (forall INFERENCE_TIMEOUT allowed_order work d ct,
                type_allowed ct = true ->
                remove_bg INFERENCE_TIMEOUT allowed_order work d
                          (mkUploadFile ct chunks) w
                = (HTTPError
                     (mkHTTPException 413 "File too large. Max 20 MB."),
                   add_events (reads (pre ++ [c])) w)))
  /\ (size_of chunks = MAX_FILE_SIZE ->
        fst (read_upload chunks w) = Return (concat chunks))
  /\ (size_of chunks = (MAX_FILE_SIZE + 1)%Z ->
        fst (read_upload chunks w)
        = Raise (mkHTTPException 413 "File too large. Max 20 MB.")).
Proof.
  intros Hne.
  assert (Hfit : (size_of chunks <= MAX_FILE_SIZE)%Z ->
                 read_upload chunks w
                 = (Return (concat chunks),
                    add_events (reads chunks ++ [last_read]) w)).
  { intros Hle. unfold read_upload.
    rewrite (read_loop_fits chunks Hne [] 0%Z w) by lia. reflexivity. }
  assert (Hover : (MAX_FILE_SIZE < size_of chunks)%Z ->
                  exists pre c post,
                    chunks = pre ++ c :: post
                    /\ (size_of pre <= MAX_FILE_SIZE)%Z
                    /\ (MAX_FILE_SIZE < size_of (pre ++ [c]))%Z
                    /\ read_upload chunks w
                       = (Raise too_large, add_events (reads (pre ++ [c])) w)).
  { intros Hgt.
    destruct (read_loop_overflows chunks Hne [] 0%Z w)
      as (pre & c & post & Heq & Hpre & Hc & Hrun);
      [unfold MAX_FILE_SIZE; lia | lia |].
    exists pre, c, post. unfold read_upload. rewrite Hrun.
    repeat split; [exact Heq | lia | lia]. }
  split; [exact Hfit|]. split; [|split].
  - intros Hgt. destruct (Hover Hgt) as (pre & c & post & Heq & Hpre & Hc & Hrun).
    exists pre, c, post. repeat split; try assumption.
    intros T order work d ct Hct. unfold remove_bg. simpl.
    rewrite Hct. simpl. rewrite Hrun. reflexivity.
  - intros Heq. rewrite Hfit by lia. reflexivity.
  - intros Heq. destruct Hover as (pre & c & post & _ & _ & _ & ->); [lia|].
    reflexivity.
Qed.

Lemma upload_limit_witness :
  read_upload two_chunks world_init
  = (Return ["a"; "b"; "c"]%byte,
     add_events (reads two_chunks ++ [last_read]) world_init).
Proof.
  apply (upload_limit two_chunks world_init).
  - repeat constructor; discriminate.
  - vm_compute. discriminate.
Defined.

(** * The handler *)

Lemma append_nil_r (s : string) : s +:+ "" = s.
Proof.
  induction s as [|c s IH]; [reflexivity|].
  change (String c (s +:+ "") = String c s). now rewrite IH.
Qed.

Lemma append_assoc (s1 s2 s3 : string) :
  (s1 +:+ s2) +:+ s3 = s1 +:+ s2 +:+ s3.
Proof.
  induction s1 as [|c s1 IH]; [reflexivity|].
  change (String c ((s1 +:+ s2) +:+ s3) = String c (s1 +:+ s2 +:+ s3)).
  now rewrite IH.
Qed.

Lemma occurs_in_append_l (t s pre : string) :
  occurs_in t s -> occurs_in t (pre +:+ s).
Proof.
  intros (p & q & ->). exists (pre +:+ p), q.
  now rewrite append_assoc.
Qed.

(** Every string of a list occurs in the list joined by a separator. *)
Lemma occurs_in_concat (sep t : string) (l : list string) :
  In t l -> occurs_in t (String.concat sep l).
Proof.
  induction l as [|x xs IH]; [intros []|].
  intros Hin. destruct xs as [|y ys].
  - destruct Hin as [->|[]]. exists "", "". symmetry. apply append_nil_r.
  - change (String.concat sep (x :: y :: ys))
      with (x +:+ sep +:+ String.concat sep (y :: ys)).
    destruct Hin as [->|Hin].
    + exists "", (sep +:+ String.concat sep (y :: ys)). reflexivity.
    + do 2 apply occurs_in_append_l. exact (IH Hin).
Qed.

Lemma type_allowed_false (ct : option string) :
  (forall t, ct = Some t -> t ∉ ALLOWED_TYPES) -> type_allowed ct = false.
Proof.
  intros H. destruct ct as [t|]; [|reflexivity].
  simpl. apply bool_decide_eq_false. exact (H t eq_refl).
Qed.

(** C6.  When the declared content type is no member of [ALLOWED_TYPES],
    the handler raises the 415 exception, whose detail names the declared
    type and every allowed type; the world is the one it was given, so
    nothing was read and the processing was not started, and the result
    does not depend on the processing function or on the event loop. *)
Theorem unsupported_type_rejected (INFERENCE_TIMEOUT : Z)
    (allowed_order : list string) (work : bytes -> string -> work_result)
    (d : Delivery) (file : UploadFile) (w : World) :
  allowed_order ≡ₚ elements ALLOWED_TYPES ->
  (forall t, content_type file = Some t -> t ∉ ALLOWED_TYPES) ->
  remove_bg INFERENCE_TIMEOUT allowed_order work d file w
  = (HTTPError
       (mkHTTPException 415
          ("Unsupported file type: " +:+ py_str (content_type file)
             +:+ ". Allowed: " +:+ String.concat ", " allowed_order)), w)
  /\ (forall t, t ∈ ALLOWED_TYPES ->
        occurs_in t
          ("Unsupported file type: " +:+ py_str (content_type file)
             +:+ ". Allowed: " +:+ String.concat ", " allowed_order))
  /\ (forall work' d',
        remove_bg INFERENCE_TIMEOUT allowed_order work' d' file w
        = remove_bg INFERENCE_TIMEOUT allowed_order work d file w)
  /\ events (snd (remove_bg INFERENCE_TIMEOUT allowed_order work d file w))
     = events w.
Proof.
  intros Hperm Hnot. pose proof (type_allowed_false _ Hnot) as Hfalse.
  assert (Hrun : forall work' d',
            remove_bg INFERENCE_TIMEOUT allowed_order work' d' file w
            = (HTTPError
                 (mkHTTPException 415
                    (unsupported_detail allowed_order (content_type file))),
               w)).
  { intros work' d'. unfold remove_bg. rewrite Hfalse. reflexivity. }
  split; [exact (Hrun work d)|]. split; [|split].
  - intros t Ht. do 3 apply occurs_in_append_l.
    apply occurs_in_concat. apply list_elem_of_In.
    rewrite Hperm. apply elem_of_elements. exact Ht.
  - intros work' d'. now rewrite !Hrun.
  - now rewrite Hrun.
Qed.

Lemma unsupported_type_rejected_witness :
  remove_bg 120 source_order work_fails WorkFirst bmp_upload world_init
  = (HTTPError
       (mkHTTPException 415
          "Unsupported file type: image/bmp. Allowed: image/jpeg, image/png, image/webp, image/gif, image/avif, image/svg+xml"),
     world_init).
Proof.
  apply (unsupported_type_rejected 120 source_order work_fails WorkFirst
           bmp_upload world_init).
  - vm_compute. solve_Permutation.
  - intros t [= <-]. vm_compute. intros H.
    apply (bool_decide_pack _) in H. vm_compute in H. exact H.
Defined.

(** C10.  An upload whose content type is [None] is refused with the 415
    exception, whose detail prints the type as [None]; the world is the one
    the handler was given, so no byte of the body was read. *)
Theorem missing_content_type_rejected (INFERENCE_TIMEOUT : Z)
    (allowed_order : list string) (work : bytes -> string -> work_result)
    (d : Delivery) (stream : list bytes) (w : World) :
  remove_bg INFERENCE_TIMEOUT allowed_order work d (mkUploadFile None stream) w
  = (HTTPError
       (mkHTTPException 415
          ("Unsupported file type: None. Allowed: "
             +:+ String.concat ", " allowed_order)), w)
  /\ type_allowed None = false.
Proof. split; reflexivity. Qed.

(** What the handler does once the type is allowed, the upload is read and
    the [try] block has raised [e]. *)
Lemma remove_bg_raised (INFERENCE_TIMEOUT : Z) (allowed_order : list string)
    (work : bytes -> string -> work_result) (d : Delivery) (file : UploadFile)
    (w w1 : World) (image_bytes : bytes) (e : Exc) :
  type_allowed (content_type file) = true ->
  read_upload (stream file) w = (Return image_bytes, w1) ->
  try_body d work image_bytes (or_empty (content_type file)) = Raised e ->
  remove_bg INFERENCE_TIMEOUT allowed_order work d file w
  = match exc_class e with
    | TimeoutErrorClass =>
        (HTTPError (mkHTTPException 504 "Processing timed out."),
         add_events [Offload image_bytes (or_empty (content_type file));
                     LogError (timed_out_message INFERENCE_TIMEOUT)] w1)
    | ExceptionClass =>
        (HTTPError (mkHTTPException 500 "Background removal failed."),
         add_events [Offload image_bytes (or_empty (content_type file));
                     LogError ("Inference failed: " +:+ exc_str e)] w1)
    | BaseExceptionClass =>
        (Unhandled e,
         add_events [Offload image_bytes (or_empty (content_type file))] w1)
    end.
Proof.
  intros Htype Hread Htry. unfold remove_bg.
  rewrite Htype. simpl negb. cbv iota. rewrite Hread. cbv zeta. rewrite Htry.
  destruct (exc_class e);
    rewrite ?emit_add_events, ?add_events_app; reflexivity.
Qed.

(** Not every failure of the processing function is answered 500: one that
    raises a [TimeoutError] of its own, before any deadline, is answered
    with 504. *)
Lemma work_timeout_error_not_500 :
  fst (remove_bg 120 source_order work_times_out WorkFirst jpeg_upload
                 world_init)
  = HTTPError (mkHTTPException 504 "Processing timed out.")
  /\ ~ (forall (INFERENCE_TIMEOUT : Z) (allowed_order : list string)
               (work : bytes -> string -> work_result) (file : UploadFile)
               (w w1 : World) (image_bytes : bytes) (e : Exc),
          type_allowed (content_type file) = true ->
          read_upload (stream file) w = (Return image_bytes, w1) ->
          work image_bytes (or_empty (content_type file)) = Raised e ->
          fst (remove_bg INFERENCE_TIMEOUT allowed_order work WorkFirst file w)
          = HTTPError (mkHTTPException 500 "Background removal failed.")).
Proof.
  assert (H504 : fst (remove_bg 120 source_order work_times_out WorkFirst
                                jpeg_upload world_init)
                 = HTTPError (mkHTTPException 504 "Processing timed out.")).
  { vm_compute. reflexivity. }
  split; [exact H504|].
  intros H.
  specialize (H 120%Z source_order work_times_out jpeg_upload world_init
                after_jpeg_read ["a"; "b"; "c"]%byte
                (mkExc TimeoutErrorClass "timed out")).
  rewrite H504 in H.
  assert (Habs : HTTPError (mkHTTPException 504 "Processing timed out.")
                 = HTTPError (mkHTTPException 500 "Background removal failed."))
    by (apply H; vm_compute; reflexivity).
  discriminate Habs.
Qed.

(** When the processing function raises [e] and the event loop delivers
    it: if [e] is an [Exception] and no [TimeoutError], the handler raises
    the 500 exception with the fixed detail and logs the cause; if [e] is a
    [TimeoutError], it raises the 504 exception with the fixed detail and
    logs the configured timeout.  Either way the response is the same for
    every cause of the same class. *)
Theorem work_failure_response (INFERENCE_TIMEOUT : Z)
    (allowed_order : list string) (work : bytes -> string -> work_result)
    (file : UploadFile) (w w1 : World) (image_bytes : bytes) (e : Exc) :
  type_allowed (content_type file) = true ->
  read_upload (stream file) w = (Return image_bytes, w1) ->
  work image_bytes (or_empty (content_type file)) = Raised e ->
  (exc_class e = ExceptionClass ->
     remove_bg INFERENCE_TIMEOUT allowed_order work WorkFirst file w
     = (HTTPError (mkHTTPException 500 "Background removal failed."),
        add_events [Offload image_bytes (or_empty (content_type file));
                    LogError ("Inference failed: " +:+ exc_str e)] w1))
  /\ (exc_class e = TimeoutErrorClass ->
        remove_bg INFERENCE_TIMEOUT allowed_order work WorkFirst file w
        = (HTTPError (mkHTTPException 504 "Processing timed out."),
           add_events [Offload image_bytes (or_empty (content_type file));
                       LogError (timed_out_message INFERENCE_TIMEOUT)] w1))
  /\ (forall work' e',
        work' image_bytes (or_empty (content_type file)) = Raised e' ->
        exc_class e' = exc_class e ->
        exc_class e <> BaseExceptionClass ->
        fst (remove_bg INFERENCE_TIMEOUT allowed_order work' WorkFirst file w)
        = fst (remove_bg INFERENCE_TIMEOUT allowed_order work WorkFirst file w)).
Proof.
  intros Htype Hread Hwork.
  pose proof (remove_bg_raised INFERENCE_TIMEOUT allowed_order work WorkFirst
                file w w1 image_bytes e Htype Hread Hwork) as Hrun.
  split; [|split].
  - intros Hc. rewrite Hrun, Hc. reflexivity.
  - intros Hc. rewrite Hrun, Hc. reflexivity.
  - intros work' e' Hwork' Hsame Hne.
    rewrite Hrun.
    rewrite (remove_bg_raised INFERENCE_TIMEOUT allowed_order work' WorkFirst
               file w w1 image_bytes e' Htype Hread Hwork').
    rewrite Hsame. destruct (exc_class e); [reflexivity | reflexivity |].
    congruence.
Qed.

Lemma work_failure_response_witness :
  fst (remove_bg 120 source_order work_fails WorkFirst jpeg_upload world_init)
  = HTTPError (mkHTTPException 500 "Background removal failed.").
Proof.
  assert (Htype : type_allowed (content_type jpeg_upload) = true)
    by (vm_compute; reflexivity).
  assert (Hread : read_upload (stream jpeg_upload) world_init
                  = (Return ["a"; "b"; "c"]%byte, after_jpeg_read))
    by (vm_compute; reflexivity).
  destruct (work_failure_response 120 source_order work_fails jpeg_upload
              world_init after_jpeg_read ["a"; "b"; "c"]%byte
              (mkExc ExceptionClass "cannot identify image file")
              Htype Hread eq_refl) as [H _].
  rewrite (H eq_refl). reflexivity.
Defined.

(** C7.  The code does not do what the claim says for a processing
    function that fails with a [TimeoutError] of its own, here on
    [jpeg_upload] with a timeout of 120 seconds and no deadline involved:
    the handler answers 504 "Processing timed out." and logs that the
    inference timed out after 120 seconds; the cause is in neither.  For a
    failure of any other [Exception] the same handler answers 500 with the
    fixed detail and logs the cause, as the claim says. *)
Theorem work_timeout_error_answered_504 :
  remove_bg 120 source_order work_times_out WorkFirst jpeg_upload world_init
  = (HTTPError (mkHTTPException 504 "Processing timed out."),
     add_events [Offload ["a"; "b"; "c"]%byte "image/jpeg";
                 LogError "Inference timed out after 120s"] after_jpeg_read)
  /\ remove_bg 120 source_order work_fails WorkFirst jpeg_upload world_init
     = (HTTPError (mkHTTPException 500 "Background removal failed."),
        add_events [Offload ["a"; "b"; "c"]%byte "image/jpeg";
                    LogError "Inference failed: cannot identify image file"]
                   after_jpeg_read).
Proof. split; vm_compute; reflexivity. Qed.

(** C5.  The code does not do what the claim says.  With the arguments of
    line 150 the wait for a started thread is shielded from the deadline,
    so a processing function that is started before the deadline, runs
    longer than [INFERENCE_TIMEOUT] and then returns bytes is answered with
    those bytes, status 200, and no time-out is logged; the claim says 504
    and never success. *)
Theorem slow_work_is_answered_200 (INFERENCE_TIMEOUT : Z)
    (allowed_order : list string) (work : bytes -> string -> work_result)
    (waited took : Z) (file : UploadFile) (w w1 : World)
    (image_bytes result_bytes : bytes) :
  type_allowed (content_type file) = true ->
  read_upload (stream file) w = (Return image_bytes, w1) ->
  work image_bytes (or_empty (content_type file)) = Returned result_bytes ->
  (0 <= waited < INFERENCE_TIMEOUT)%Z ->
  (INFERENCE_TIMEOUT < took)%Z ->
  remove_bg_timed INFERENCE_TIMEOUT allowed_order work waited took file w
  = (StreamingResponse result_bytes "image/png"
       [("Content-Disposition", "attachment; filename=no-bg.png")],
     add_events [Offload image_bytes (or_empty (content_type file))] w1)
  /\ fst (remove_bg_timed INFERENCE_TIMEOUT allowed_order work waited took
                          file w)
     <> HTTPError (mkHTTPException 504 "Processing timed out.").
Proof.
  intros Htype Hread Hwork Hstart _.
  assert (Hd : run_sync_delivery false INFERENCE_TIMEOUT waited took
               = WorkFirst).
  { unfold run_sync_delivery.
    destruct (Z.leb_spec INFERENCE_TIMEOUT waited); [lia | reflexivity]. }
  assert (Hrun : remove_bg_timed INFERENCE_TIMEOUT allowed_order work
                                 waited took file w
                 = (ok_response result_bytes,
                    add_events [Offload image_bytes
                                        (or_empty (content_type file))] w1)).
  { unfold remove_bg_timed. rewrite Hd. unfold remove_bg.
    rewrite Htype. simpl negb. cbv iota. rewrite Hread. cbv zeta.
    unfold try_body. rewrite Hwork. reflexivity. }
  split; [exact Hrun|]. rewrite Hrun. discriminate.
Qed.

Lemma slow_work_is_answered_200_witness :
  remove_bg_timed 120 source_order work_succeeds 0 130 jpeg_upload world_init
  = (StreamingResponse ["P"; "N"]%byte "image/png"
       [("Content-Disposition", "attachment; filename=no-bg.png")],
     add_events [Offload ["a"; "b"; "c"]%byte "image/jpeg"] after_jpeg_read).
Proof.
  apply (slow_work_is_answered_200 120 source_order work_succeeds 0 130
           jpeg_upload world_init after_jpeg_read ["a"; "b"; "c"]%byte
           ["P"; "N"]%byte).
  - vm_compute. reflexivity.
  - vm_compute. reflexivity.
  - reflexivity.
  - lia.
  - reflexivity.
Defined.

(** X1.  When [fail_after] raises its [TimeoutError], the handler raises the 504
    exception and logs the configured timeout, whatever the processing
    function would have returned. *)
Theorem deadline_expiry_gives_504 (INFERENCE_TIMEOUT : Z)
    (allowed_order : list string) (work : bytes -> string -> work_result)
    (file : UploadFile) (w w1 : World) (image_bytes : bytes) :
  type_allowed (content_type file) = true ->
  read_upload (stream file) w = (Return image_bytes, w1) ->
  remove_bg INFERENCE_TIMEOUT allowed_order work DeadlineFirst file w
  = (HTTPError (mkHTTPException 504 "Processing timed out."),
     add_events [Offload image_bytes (or_empty (content_type file));
                 LogError ("Inference timed out after "
                             +:+ pretty INFERENCE_TIMEOUT +:+ "s")] w1).
Proof.
  intros Htype Hread.
  exact (remove_bg_raised INFERENCE_TIMEOUT allowed_order work DeadlineFirst
           file w w1 image_bytes (mkExc TimeoutErrorClass "")
           Htype Hread eq_refl).
Qed.

Lemma deadline_expiry_gives_504_witness :
  remove_bg 120 source_order work_succeeds DeadlineFirst jpeg_upload world_init
  = (HTTPError (mkHTTPException 504 "Processing timed out."),
     add_events [Offload ["a"; "b"; "c"]%byte "image/jpeg";
                 LogError "Inference timed out after 120s"] after_jpeg_read).
Proof.
  apply (deadline_expiry_gives_504 120 source_order work_succeeds jpeg_upload
           world_init after_jpeg_read ["a"; "b"; "c"]%byte).
  - vm_compute. reflexivity.
  - vm_compute. reflexivity.
Defined.

(** X2.  When the processing function returns and the event loop delivers its
    result, the handler answers with those bytes as a PNG attachment. *)
Theorem work_success_response (INFERENCE_TIMEOUT : Z)
    (allowed_order : list string) (work : bytes -> string -> work_result)
    (file : UploadFile) (w w1 : World) (image_bytes result_bytes : bytes) :
  type_allowed (content_type file) = true ->
  read_upload (stream file) w = (Return image_bytes, w1) ->
  work image_bytes (or_empty (content_type file)) = Returned result_bytes ->
  remove_bg INFERENCE_TIMEOUT allowed_order work WorkFirst file w
  = (StreamingResponse result_bytes "image/png"
       [("Content-Disposition", "attachment; filename=no-bg.png")],
     add_events [Offload image_bytes (or_empty (content_type file))] w1).
Proof.
  intros Htype Hread Hwork. unfold remove_bg.
  rewrite Htype. simpl negb. cbv iota. rewrite Hread. cbv zeta.
  unfold try_body. rewrite Hwork. reflexivity.
Qed.

Lemma work_success_response_witness :
  fst (remove_bg 120 source_order work_succeeds WorkFirst jpeg_upload
                 world_init)
  = StreamingResponse ["P"; "N"]%byte "image/png"
      [("Content-Disposition", "attachment; filename=no-bg.png")].
Proof.
  rewrite (work_success_response 120 source_order work_succeeds jpeg_upload
             world_init after_jpeg_read ["a"; "b"; "c"]%byte ["P"; "N"]%byte).
  - reflexivity.
  - vm_compute. reflexivity.
  - vm_compute. reflexivity.
  - reflexivity.
Defined.

(** * The route, end to end *)

(** The first entry of the forwarded-address header, stripped, is the
    identity; without the header it is the peer address, and without
    either it is ["unknown"]. *)
Example get_client_ip_samples :
  _get_client_ip (mkRequest (Some " 1.2.3.4 , 10.0.0.1") (Some "10.0.0.9"))
  = "1.2.3.4"
  /\ _get_client_ip (mkRequest (Some "") (Some "10.0.0.9")) = "10.0.0.9"
  /\ _get_client_ip (mkRequest None None) = "unknown".
Proof. repeat split; reflexivity. Qed.

(** After five wrong keys within ten seconds the client ["1.2.3.4"] is
    locked out: a sixth request is refused with 429 even with the right
    key.  Once 900 seconds have passed since the lockout the right key is
    accepted and both records of the client are gone. *)
Theorem lockout_end_to_end :
  _blocked_ips five_wrong_keys !! "1.2.3.4" = Some 5
  /\ verify_api_key (Some "s3cret") request_1234 (Some "s3cret") 6 6
                    five_wrong_keys
     = (Lockout, five_wrong_keys)
  /\ verify_api_key (Some "s3cret") request_1234 (Some "s3cret") 905 905
                    five_wrong_keys
     = (Allow,
        mkWorld ∅ ∅
          [LogWarning
             "Blocked 1.2.3.4 for 900s after 5 failed auth attempts"]).
Proof. repeat split; vm_compute; reflexivity. Qed.

(** * More on the attempt tracker *)

Section TrackerFrame.

Implicit Types (ip : string) (w : World) (now since : float).

Lemma is_blocked_other now ip ip' w :
  ip' <> ip ->
  _failed_attempts (snd (_is_blocked now ip w)) !! ip'
  = _failed_attempts w !! ip'
  /\ _blocked_ips (snd (_is_blocked now ip w)) !! ip' = _blocked_ips w !! ip'.
Proof.
  intros Hne. unfold _is_blocked.
  destruct (_blocked_ips w !! ip) as [since|]; [|split; reflexivity].
  destruct (_ <? _); simpl; [split; reflexivity|].
  split; apply lookup_delete_ne; congruence.
Qed.

Lemma record_failure_other now ip ip' w :
  ip' <> ip ->
  _failed_attempts (_record_failure now ip w) !! ip'
  = _failed_attempts w !! ip'
  /\ _blocked_ips (_record_failure now ip w) !! ip' = _blocked_ips w !! ip'.
Proof.
  intros Hne. unfold _record_failure.
  destruct (MAX_FAILED_ATTEMPTS <=? _)%nat; simpl; split;
    try reflexivity; apply lookup_insert_ne; congruence.
Qed.

Lemma verify_api_key_other (API_KEY : option string) (request : Request)
    (key : option string) (t_check t_fail : float) w ip' :
  ip' <> _get_client_ip request ->
  _failed_attempts (snd (verify_api_key API_KEY request key t_check t_fail w))
    !! ip' = _failed_attempts w !! ip'
  /\ _blocked_ips (snd (verify_api_key API_KEY request key t_check t_fail w))
       !! ip' = _blocked_ips w !! ip'.
Proof.
  intros Hne. unfold verify_api_key.
  destruct API_KEY as [secret|]; [|split; reflexivity].
  pose proof (is_blocked_other t_check _ _ w Hne) as [Hf Hb].
  destruct (_is_blocked t_check (_get_client_ip request) w) as [blocked w1].
  simpl in Hf, Hb.
  destruct blocked; simpl; [split; assumption|].
  destruct (bool_decide (key = Some secret)); simpl; [split; assumption|].
  pose proof (record_failure_other t_fail _ _ w1 Hne) as [Hf' Hb'].
  split; congruence.
Qed.

(** The handler leaves both dictionaries as they are. *)
Lemma read_loop_maps (stream : list bytes) :
  forall (acc : list bytes) (total : Z) w,
    _failed_attempts (snd (read_loop stream acc total w)) = _failed_attempts w
    /\ _blocked_ips (snd (read_loop stream acc total w)) = _blocked_ips w.
Proof.
  induction stream as [|c rest IH]; intros acc total w; [split; reflexivity|].
  destruct c as [|b c]; [split; reflexivity|].
  rewrite read_loop_step by discriminate.
  destruct (MAX_FILE_SIZE <? _)%Z; [split; reflexivity|].
  split; [rewrite (proj1 (IH _ _ _)) | rewrite (proj2 (IH _ _ _))];
    reflexivity.
Qed.

Lemma remove_bg_maps (INFERENCE_TIMEOUT : Z) (allowed_order : list string)
    (work : bytes -> string -> work_result) (d : Delivery)
    (file : UploadFile) w :
  _failed_attempts
    (snd (remove_bg INFERENCE_TIMEOUT allowed_order work d file w))
  = _failed_attempts w
  /\ _blocked_ips
       (snd (remove_bg INFERENCE_TIMEOUT allowed_order work d file w))
     = _blocked_ips w.
Proof.
  unfold remove_bg.
  destruct (negb (type_allowed (content_type file))); [split; reflexivity|].
  unfold read_upload.
  pose proof (read_loop_maps (stream file) [] 0%Z w) as [Hf Hb].
  destruct (read_loop (stream file) [] 0 w) as [[chunks|e] w1];
    simpl in Hf, Hb; [|split; assumption].
  destruct (try_body _ _ _ _) as [r|e]; [split; assumption|].
  destruct (exc_class e); split; assumption.
Qed.

End TrackerFrame.

Section TrackerInvariant.

Implicit Types (ip : string) (w : World) (now since : float).

Lemma in_window_length now (l : list float) :
  (length (in_window now l) <= length l)%nat.
Proof.
  unfold in_window. induction l as [|t l IH]; simpl; [lia|].
  destruct (_ <? _); simpl; lia.
Qed.

Lemma tracker_inv_init : tracker_inv world_init.
Proof.
  split; [intros ip l H | intros ip t H]; simpl in H;
    rewrite lookup_empty in H; discriminate.
Qed.

(** Only the dictionaries count. *)
Lemma tracker_inv_maps w w' :
  _failed_attempts w' = _failed_attempts w ->
  _blocked_ips w' = _blocked_ips w ->
  tracker_inv w -> tracker_inv w'.
Proof. unfold tracker_inv. intros -> ->. tauto. Qed.

Lemma tracker_inv_forget ip w :
  tracker_inv w ->
  tracker_inv (mkWorld (delete ip (_failed_attempts w))
                       (delete ip (_blocked_ips w)) (events w)).
Proof.
  intros [Hf Hb]. split; simpl.
  - intros ip1 l Hl. destruct (decide (ip1 = ip)) as [->|Hne].
    + rewrite lookup_delete_eq in Hl. discriminate.
    + rewrite lookup_delete_ne in Hl by congruence.
      rewrite lookup_delete_ne by congruence. exact (Hf ip1 l Hl).
  - intros ip1 t Ht. destruct (decide (ip1 = ip)) as [->|Hne].
    + rewrite lookup_delete_eq in Ht. discriminate.
    + rewrite lookup_delete_ne in Ht by congruence.
      rewrite lookup_delete_ne by congruence. exact (Hb ip1 t Ht).
Qed.

(** An identity without a lockout record has fewer than
    [MAX_FAILED_ATTEMPTS] stored timestamps. *)
Lemma stored_attempts_short ip w :
  tracker_inv w -> _blocked_ips w !! ip = None ->
  (length (stored_attempts ip w) < MAX_FAILED_ATTEMPTS)%nat.
Proof.
  intros [Hf _] Hnone. unfold stored_attempts.
  destruct (_failed_attempts w !! ip) as [l|] eqn:Hl; simpl;
    [|unfold MAX_FAILED_ATTEMPTS; lia].
  destruct (Hf ip l Hl) as [[_ Hle] Hfull].
  destruct (decide (length l = MAX_FAILED_ATTEMPTS)) as [Heq|Hne]; [|lia].
  specialize (Hfull Heq). rewrite Hnone in Hfull.
  symmetry in Hfull. apply last_None in Hfull. subst l.
  simpl in Heq. unfold MAX_FAILED_ATTEMPTS in Heq. discriminate.
Qed.

Lemma tracker_inv_record_failure now ip w :
  tracker_inv w -> _blocked_ips w !! ip = None ->
  tracker_inv (_record_failure now ip w).
Proof.
  intros Hinv Hnone. pose proof (stored_attempts_short ip w Hinv Hnone) as Hs.
  pose proof (in_window_length now (stored_attempts ip w)) as Hw.
  pose proof (attempts_after_length now ip w) as Hlen.
  destruct Hinv as [Hf Hb]. unfold _record_failure.
  destruct (MAX_FAILED_ATTEMPTS <=? length (attempts_after now ip w))%nat
    eqn:E; [apply Nat.leb_le in E | apply Nat.leb_gt in E]; split; simpl.
  - intros ip1 l Hl. destruct (decide (ip1 = ip)) as [->|Hne].
    + rewrite lookup_insert_eq in Hl. injection Hl as <-.
      split; [lia|]. intros _. rewrite lookup_insert_eq.
      unfold attempts_after. now rewrite last_snoc.
    + rewrite lookup_insert_ne in Hl by congruence.
      rewrite lookup_insert_ne by congruence. exact (Hf ip1 l Hl).
  - intros ip1 t Ht. destruct (decide (ip1 = ip)) as [->|Hne].
    + rewrite lookup_insert_eq in Ht. injection Ht as <-.
      exists (attempts_after now ip w). rewrite lookup_insert_eq.
      split; [reflexivity|]. split; [lia|].
      unfold attempts_after. apply last_snoc.
    + rewrite lookup_insert_ne in Ht by congruence.
      rewrite lookup_insert_ne by congruence. exact (Hb ip1 t Ht).
  - intros ip1 l Hl. destruct (decide (ip1 = ip)) as [->|Hne].
    + rewrite lookup_insert_eq in Hl. injection Hl as <-.
      split; [lia|]. intros Hfull. lia.
    + rewrite lookup_insert_ne in Hl by congruence. exact (Hf ip1 l Hl).
  - intros ip1 t Ht. destruct (decide (ip1 = ip)) as [->|Hne].
    + rewrite Hnone in Ht. discriminate.
    + rewrite lookup_insert_ne by congruence. exact (Hb ip1 t Ht).
Qed.

Lemma tracker_inv_is_blocked now ip w :
  tracker_inv w ->
  tracker_inv (snd (_is_blocked now ip w))
  /\ (fst (_is_blocked now ip w) = false ->
      _blocked_ips (snd (_is_blocked now ip w)) !! ip = None).
Proof.
  intros Hinv. unfold _is_blocked.
  destruct (_blocked_ips w !! ip) as [since|] eqn:Hl.
  - destruct (_ <? _); simpl.
    + split; [exact Hinv | discriminate].
    + split; [apply tracker_inv_forget, Hinv |].
      intros _. apply lookup_delete_eq.
  - simpl. split; [exact Hinv | intros _; exact Hl].
Qed.

Lemma tracker_inv_verify (API_KEY : option string) (request : Request)
    (key : option string) (t_check t_fail : float) w :
  tracker_inv w ->
  tracker_inv (snd (verify_api_key API_KEY request key t_check t_fail w)).
Proof.
  intros Hinv. unfold verify_api_key.
  destruct API_KEY as [secret|]; [|exact Hinv].
  pose proof (tracker_inv_is_blocked t_check (_get_client_ip request) w Hinv)
    as [Hinv1 Hnone].
  destruct (_is_blocked t_check (_get_client_ip request) w) as [blocked w1].
  simpl in Hinv1, Hnone.
  destruct blocked; simpl; [exact Hinv1|].
  destruct (bool_decide (key = Some secret)); simpl; [exact Hinv1|].
  apply tracker_inv_record_failure; [exact Hinv1 | exact (Hnone eq_refl)].
Qed.

Lemma reachable_tracker_inv (API_KEY : option string) w :
  reachable API_KEY w -> tracker_inv w.
Proof.
  induction 1 as [|w T order work d request key file t_check t_fail _ IH];
    [apply tracker_inv_init|].
  unfold post_remove_bg.
  pose proof (tracker_inv_verify API_KEY request key t_check t_fail w IH)
    as Hv.
  destruct (verify_api_key API_KEY request key t_check t_fail w)
    as [[[]|e] w1]; simpl in Hv |- *; [|exact Hv].
  destruct (remove_bg_maps T order work d file w1) as [Hf Hb].
  exact (tracker_inv_maps w1 _ Hf Hb Hv).
Qed.

End TrackerInvariant.

(** X4.  In every world a server reaches, whatever requests it served and
    whenever: no attempt record is empty or holds more than
    [MAX_FAILED_ATTEMPTS] timestamps; an identity with a full record is
    locked out since the last timestamp of that record; and every lockout
    record belongs to an identity whose attempt record is full and ends at
    the time of the lockout. *)
Theorem tracker_records_bounded (API_KEY : option string) (w : World) :
  reachable API_KEY w ->
  (forall ip l, _failed_attempts w !! ip = Some l ->
      (1 <= length l <= 5)%nat
      /\ (length l = 5%nat -> _blocked_ips w !! ip = last l))
  /\ (forall ip t, _blocked_ips w !! ip = Some t ->
        exists l, _failed_attempts w !! ip = Some l
                  /\ length l = 5%nat /\ last l = Some t).
Proof. intros H. exact (reachable_tracker_inv API_KEY w H). Qed.

Lemma tracker_records_bounded_witness :
  (1 <= length (stored_attempts "1.2.3.4" after_one_wrong_key) <= 5)%nat.
Proof.
  assert (Hreach : reachable (Some "s3cret") after_one_wrong_key)
    by (apply reachable_request, reachable_init).
  destruct (tracker_records_bounded (Some "s3cret") after_one_wrong_key Hreach)
    as [H _].
  assert (Hl : _failed_attempts after_one_wrong_key !! "1.2.3.4" = Some [1])
    by (vm_compute; reflexivity).
  unfold stored_attempts. rewrite Hl. exact (proj1 (H "1.2.3.4" [1] Hl)).
Defined.

(** X5.  A request changes the records of its own identity only: the attempt
    record and the lockout record of every other identity are after the
    request what they were before. *)
Theorem clients_are_isolated (API_KEY : option string)
    (INFERENCE_TIMEOUT : Z) (allowed_order : list string)
    (work : bytes -> string -> work_result) (d : Delivery)
    (request : Request) (key : option string) (file : UploadFile)
    (t_check t_fail : float) (w : World) (ip' : string) :
  ip' <> _get_client_ip request ->
  _failed_attempts
    (snd (post_remove_bg API_KEY INFERENCE_TIMEOUT allowed_order work d
                         request key file t_check t_fail w)) !! ip'
  = _failed_attempts w !! ip'
  /\ _blocked_ips
       (snd (post_remove_bg API_KEY INFERENCE_TIMEOUT allowed_order work d
                            request key file t_check t_fail w)) !! ip'
     = _blocked_ips w !! ip'.
Proof.
  intros Hne. unfold post_remove_bg.
  pose proof (verify_api_key_other API_KEY request key t_check t_fail w ip'
                Hne) as [Hf Hb].
  destruct (verify_api_key API_KEY request key t_check t_fail w)
    as [[[]|e] w1]; simpl in Hf, Hb |- *; [|split; assumption].
  destruct (remove_bg_maps INFERENCE_TIMEOUT allowed_order work d file w1)
    as [Hf' Hb'].
  rewrite Hf', Hb'. split; assumption.
Qed.

Lemma clients_are_isolated_witness :
  _blocked_ips
    (snd (post_remove_bg (Some "s3cret") 120 source_order work_succeeds
            WorkFirst (mkRequest (Some "10.0.0.7") None) (Some "guess")
            jpeg_upload 6 6 blocked_at_five)) !! "1.2.3.4"
  = _blocked_ips blocked_at_five !! "1.2.3.4".
Proof.
  apply (clients_are_isolated (Some "s3cret") 120 source_order work_succeeds
           WorkFirst (mkRequest (Some "10.0.0.7") None) (Some "guess")
           jpeg_upload 6 6 blocked_at_five "1.2.3.4").
  vm_compute. discriminate.
Defined.

(** * More on the authenticator *)

Section Authenticator.

Variables (secret : string) (request : Request).

Implicit Types (key : option string) (w : World).

Lemma verify_api_key_not_blocked key (t_check t_fail : float) w :
  _blocked_ips w !! _get_client_ip request = None ->
  verify_api_key (Some secret) request key t_check t_fail w
  = if negb (bool_decide (key = Some secret))
    then (Reject, _record_failure t_fail (_get_client_ip request) w)
    else (Allow, w).
Proof.
  intros Hnone. unfold verify_api_key.
  rewrite (is_blocked_absent _ _ _ Hnone). reflexivity.
Qed.

Lemma verify_api_key_expired key (t_check t_fail since : float) w :
  _blocked_ips w !! _get_client_ip request = Some since ->
  (t_check - since <? BLOCK_DURATION) = false ->
  verify_api_key (Some secret) request key t_check t_fail w
  = verify_api_key (Some secret) request key t_check t_fail
      (mkWorld (delete (_get_client_ip request) (_failed_attempts w))
               (delete (_get_client_ip request) (_blocked_ips w))
               (events w)).
Proof.
  intros Hl Hge.
  rewrite (verify_api_key_not_blocked key t_check t_fail (mkWorld _ _ _))
    by apply lookup_delete_eq.
  unfold verify_api_key.
  rewrite (is_blocked_expired _ _ _ _ Hl Hge). reflexivity.
Qed.

Lemma wrong_key_decide key :
  key <> Some secret -> negb (bool_decide (key = Some secret)) = true.
Proof. intros H. now rewrite bool_decide_eq_false_2. Qed.

(** One failure, more than a window after the only stored one. *)
Lemma record_failure_spaced (prev t : float) w :
  _blocked_ips w !! _get_client_ip request = None ->
  _failed_attempts w !! _get_client_ip request = Some [prev] ->
  (t - prev <? ATTEMPT_WINDOW) = false ->
  _blocked_ips (_record_failure t (_get_client_ip request) w)
    !! _get_client_ip request = None
  /\ _failed_attempts (_record_failure t (_get_client_ip request) w)
       !! _get_client_ip request = Some [t].
Proof.
  intros Hb Hf Hgap.
  assert (Ha : attempts_after t (_get_client_ip request) w = [t]).
  { unfold attempts_after, stored_attempts. rewrite Hf. simpl.
    rewrite Hgap. reflexivity. }
  split.
  - rewrite record_failure_below; [exact Hb|].
    rewrite Ha. unfold MAX_FAILED_ATTEMPTS. simpl. lia.
  - rewrite record_failure_attempts, Ha. reflexivity.
Qed.

Lemma last_cons_default (l : list float) :
  forall t d : float, List.last (t :: l) d = List.last l t.
Proof.
  induction l as [|a l IH]; intros t d; [reflexivity|].
  change (List.last (a :: l) d = List.last (a :: l) t).
  now rewrite !IH.
Qed.

Lemma replay_spaced key (times : list float) :
  key <> Some secret ->
  forall (prev : float) w,
    _blocked_ips w !! _get_client_ip request = None ->
    _failed_attempts w !! _get_client_ip request = Some [prev] ->
    spaced prev times ->
    _blocked_ips (replay (Some secret) request key times w)
      !! _get_client_ip request = None
    /\ _failed_attempts (replay (Some secret) request key times w)
         !! _get_client_ip request = Some [List.last times prev].
Proof.
  intros Hkey. induction times as [|t times IH]; intros prev w Hb Hf Hsp.
  - split; assumption.
  - destruct Hsp as [Hgap Hsp].
    cbn [replay]. rewrite (verify_api_key_not_blocked key t t w Hb).
    rewrite (wrong_key_decide key Hkey). cbn [snd].
    destruct (record_failure_spaced prev t w Hb Hf Hgap) as [Hb' Hf'].
    destruct (IH t _ Hb' Hf' Hsp) as [H1 H2]. split; [exact H1|].
    rewrite H2, last_cons_default. reflexivity.
Qed.

Lemma replay_blocked key (since : float) w (times : list float) :
  _blocked_ips w !! _get_client_ip request = Some since ->
  Forall (fun t => (t - since <? BLOCK_DURATION) = true) times ->
  replay (Some secret) request key times w = w.
Proof.
  intros Hl. induction 1 as [|t times Ht _ IH]; [reflexivity|].
  cbn [replay].
  rewrite (verify_api_key_blocked secret request key since t t w Hl Ht).
  exact IH.
Qed.

End Authenticator.

(** X6.  A client that presents a wrong key, or none, no more often than once
    per [ATTEMPT_WINDOW], so that at each failure the program's test
    [now - t < 60] fails for the failure before, is never locked out: after
    any number of such requests its attempt record holds the last failure
    only and it has no lockout record. *)
Theorem slow_guessing_never_locks (secret : string) (request : Request)
    (key : option string) (t0 : float) (times : list float) (w : World) :
  key <> Some secret ->
  _blocked_ips w !! _get_client_ip request = None ->
  _failed_attempts w !! _get_client_ip request = None ->
  spaced t0 times ->
  _blocked_ips (replay (Some secret) request key (t0 :: times) w)
    !! _get_client_ip request = None
  /\ _failed_attempts (replay (Some secret) request key (t0 :: times) w)
       !! _get_client_ip request = Some [List.last times t0].
Proof.
  intros Hkey Hb Hf Hsp. cbn [replay].
  rewrite (verify_api_key_not_blocked secret request key t0 t0 w Hb).
  rewrite (wrong_key_decide secret key Hkey). cbn [snd].
  apply (replay_spaced secret request key times Hkey t0); [| |exact Hsp].
  - rewrite record_failure_below; [exact Hb|].
    rewrite attempts_after_length. unfold stored_attempts. rewrite Hf.
    unfold MAX_FAILED_ATTEMPTS. simpl. lia.
  - rewrite record_failure_attempts. unfold attempts_after, stored_attempts.
    rewrite Hf. reflexivity.
Qed.

Lemma slow_guessing_never_locks_witness :
  _blocked_ips
    (replay (Some "s3cret") request_1234 None [0; 60; 120; 180; 240; 300]
            world_init) !! "1.2.3.4" = None.
Proof.
  apply (slow_guessing_never_locks "s3cret" request_1234 None 0
           [60; 120; 180; 240; 300] world_init).
  - discriminate.
  - reflexivity.
  - reflexivity.
  - vm_compute. repeat split; discriminate.
Defined.

(** X3.  The request whose failure completes the threshold, being the fifth
    or later that passes the program's test [t_fail - t < 60], is itself
    answered 401; the lockout it creates carries the clock reading of that
    failure, and every request whose check passes the program's test
    [t_check' - t_fail < 900] on binary64 readings gets 429. *)
Theorem lockout_starts_with_next_request (secret : string)
    (request : Request) (key key' : option string)
    (t_check t_fail t_check' t_fail' : float) (w : World) :
  key <> Some secret ->
  _blocked_ips w !! _get_client_ip request = None ->
  (5 <= length (List.filter
                  (fun t => (t_fail - t <? 60)%float)
                  (default [] (_failed_attempts w !! _get_client_ip request)))
        + 1)%nat ->
  (t_check' - t_fail <? 900) = true ->
  fst (verify_api_key (Some secret) request key t_check t_fail w)
  = Raise (mkHTTPException 401 "Invalid or missing API key.")
  /\ _blocked_ips (snd (verify_api_key (Some secret) request key
                                       t_check t_fail w))
       !! _get_client_ip request = Some t_fail
  /\ fst (verify_api_key (Some secret) request key' t_check' t_fail'
            (snd (verify_api_key (Some secret) request key t_check t_fail w)))
     = Raise (mkHTTPException 429 "Too many failed attempts. Try again later.").
Proof.
  intros Hkey Hb Hcount Hlt.
  rewrite (verify_api_key_not_blocked secret request key t_check t_fail w Hb).
  rewrite (wrong_key_decide secret key Hkey). cbn [fst snd].
  assert (Hlock : _blocked_ips (_record_failure t_fail (_get_client_ip request) w)
                    !! _get_client_ip request = Some t_fail).
  { rewrite record_failure_locks; [apply lookup_insert_eq|].
    rewrite attempts_after_length. exact Hcount. }
  split; [reflexivity|]. split; [exact Hlock|].
  rewrite (verify_api_key_blocked secret request key' t_fail t_check' t_fail'
             _ Hlock Hlt).
  reflexivity.
Qed.

Lemma lockout_starts_with_next_request_witness :
  fst (verify_api_key (Some "s3cret") request_1234 (Some "guess") 5 5
                      four_failures)
  = Raise (mkHTTPException 401 "Invalid or missing API key.").
Proof.
  apply (lockout_starts_with_next_request "s3cret" request_1234
           (Some "guess") (Some "s3cret") 5 5 6 6 four_failures).
  - discriminate.
  - reflexivity.
  - vm_compute. lia.
  - vm_compute. reflexivity.
Defined.

(** X7.  A request with the right key from an identity without lockout record is
    allowed and leaves the world as it is: an accepted request does not
    clear the attempt record, so earlier failures inside the window still
    count towards the threshold of a later one. *)
Theorem success_keeps_failures (secret : string) (request : Request)
    (t_check t_fail now : float) (w : World) :
  _blocked_ips w !! _get_client_ip request = None ->
  verify_api_key (Some secret) request (Some secret) t_check t_fail w
  = (Return tt, w)
  /\ attempts_after now (_get_client_ip request)
       (snd (verify_api_key (Some secret) request (Some secret)
                            t_check t_fail w))
     = attempts_after now (_get_client_ip request) w.
Proof.
  intros Hb.
  rewrite (verify_api_key_not_blocked secret request (Some secret)
             t_check t_fail w Hb).
  rewrite bool_decide_eq_true_2 by reflexivity. split; reflexivity.
Qed.

Lemma success_keeps_failures_witness :
  verify_api_key (Some "s3cret") request_1234 (Some "s3cret") 5 5
                 four_failures
  = (Return tt, four_failures).
Proof.
  apply (success_keeps_failures "s3cret" request_1234 5 5 5 four_failures).
  reflexivity.
Defined.

(** X8.  The first request that checks a lockout [BLOCK_DURATION] or more after
    it was created, so that the program's test [t_check - since < 900]
    fails, is served as if the identity had never failed: with the
    right key it is allowed and both records are gone; with a wrong key, or
    none, it is answered 401 and the attempt record starts again with this
    one failure, without lockout. *)
Theorem expired_lockout_starts_afresh (secret : string) (request : Request)
    (key : option string) (since t_check t_fail : float) (w : World) :
  _blocked_ips w !! _get_client_ip request = Some since ->
  (t_check - since <? BLOCK_DURATION) = false ->
  (key = Some secret ->
     verify_api_key (Some secret) request key t_check t_fail w
     = (Return tt,
        mkWorld (delete (_get_client_ip request) (_failed_attempts w))
                (delete (_get_client_ip request) (_blocked_ips w))
                (events w)))
  /\ (key <> Some secret ->
        fst (verify_api_key (Some secret) request key t_check t_fail w)
        = Raise (mkHTTPException 401 "Invalid or missing API key.")
        /\ _failed_attempts
             (snd (verify_api_key (Some secret) request key t_check t_fail w))
             !! _get_client_ip request = Some [t_fail]
        /\ _blocked_ips
             (snd (verify_api_key (Some secret) request key t_check t_fail w))
             !! _get_client_ip request = None).
Proof.
  intros Hl Hge.
  rewrite (verify_api_key_expired secret request key t_check t_fail since w
             Hl Hge).
  rewrite (verify_api_key_not_blocked secret request key t_check t_fail
             (mkWorld _ _ _)) by apply lookup_delete_eq.
  split.
  - intros ->. rewrite bool_decide_eq_true_2 by reflexivity. reflexivity.
  - intros Hkey. rewrite (wrong_key_decide secret key Hkey). cbn [fst snd].
    assert (Ha : attempts_after t_fail (_get_client_ip request)
                   (mkWorld (delete (_get_client_ip request)
                                    (_failed_attempts w))
                            (delete (_get_client_ip request) (_blocked_ips w))
                            (events w)) = [t_fail]).
    { unfold attempts_after, stored_attempts. simpl.
      rewrite lookup_delete_eq. reflexivity. }
    split; [reflexivity|]. split.
    + rewrite record_failure_attempts, Ha. reflexivity.
    + rewrite record_failure_below.
      * apply lookup_delete_eq.
      * rewrite Ha. unfold MAX_FAILED_ATTEMPTS. simpl. lia.
Qed.

Lemma expired_lockout_starts_afresh_witness :
  _failed_attempts
    (snd (verify_api_key (Some "s3cret") request_1234 (Some "guess")
                         905 906 blocked_at_five)) !! "1.2.3.4"
  = Some [906].
Proof.
  destruct (expired_lockout_starts_afresh "s3cret" request_1234
              (Some "guess") 5 905 906 blocked_at_five) as [_ H].
  - vm_compute. reflexivity.
  - vm_compute. reflexivity.
  - destruct H as (_ & H & _); [discriminate | exact H].
Defined.

(** X9.  Requests made while an identity is locked out, each at a clock reading
    [t] for which the program's test [t - since < 900] on binary64 readings
    passes, change nothing, whatever key they carry and however many they
    are: the lockout is neither extended nor shortened, and no failure is
    added. *)
Theorem lockout_not_extended (secret : string) (request : Request)
    (key : option string) (since : float) (times : list float) (w : World) :
  _blocked_ips w !! _get_client_ip request = Some since ->
  Forall (fun t => (t - since <? 900) = true) times ->
  replay (Some secret) request key times w = w.
Proof. apply replay_blocked. Qed.

Lemma lockout_not_extended_witness :
  replay (Some "s3cret") request_1234 (Some "guess") [6; 400; 904]
         blocked_at_five
  = blocked_at_five.
Proof.
  apply (lockout_not_extended "s3cret" request_1234 (Some "guess") 5).
  - vm_compute. reflexivity.
  - repeat constructor; vm_compute; reflexivity.
Defined.

(** * More on the route *)

Lemma verify_api_key_events (API_KEY : option string) (request : Request)
    (key : option string) (t_check t_fail : float) (w : World) :
  events (snd (verify_api_key API_KEY request key t_check t_fail w))
  = events w
  \/ exists msg,
       events (snd (verify_api_key API_KEY request key t_check t_fail w))
       = events w ++ [LogWarning msg].
Proof.
  unfold verify_api_key. destruct API_KEY as [secret|]; [|left; reflexivity].
  assert (He : events (snd (_is_blocked t_check (_get_client_ip request) w))
               = events w).
  { unfold _is_blocked. destruct (_blocked_ips w !! _); [|reflexivity].
    destruct (_ <? _); reflexivity. }
  destruct (_is_blocked t_check (_get_client_ip request) w) as [blocked w1].
  simpl in He. destruct blocked; simpl; [left; exact He|].
  destruct (bool_decide (key = Some secret)); simpl; [left; exact He|].
  unfold _record_failure. destruct (MAX_FAILED_ATTEMPTS <=? _)%nat; simpl.
  - right. eexists. rewrite He. reflexivity.
  - left. exact He.
Qed.

(** X10.  With a secret configured, a request that does not carry it is
    never handed to the handler.  If its body cannot be parsed it is
    answered 400 and nothing changes; otherwise it is answered 401 or 429,
    whether or not it holds an upload.  The read loop of the handler and the
    processing are not started: the only event the request can leave is the
    warning that reports a new lockout. *)
Theorem wrong_key_never_reaches_handler (secret : string)
    (INFERENCE_TIMEOUT : Z) (allowed_order : list string)
    (work : bytes -> string -> work_result) (d : Delivery)
    (request : Request) (key : option string) (body : Body)
    (t_check t_fail : float) (w : World) :
  key <> Some secret ->
  (body = Unparsable
   /\ serve (Some secret) INFERENCE_TIMEOUT allowed_order work d
            request key body t_check t_fail w = (BadRequest, w))
  \/ (body <> Unparsable
      /\ (fst (serve (Some secret) INFERENCE_TIMEOUT allowed_order work d
                     request key body t_check t_fail w)
          = Responded (HTTPError (mkHTTPException 401
                                    "Invalid or missing API key."))
          \/ fst (serve (Some secret) INFERENCE_TIMEOUT allowed_order work d
                        request key body t_check t_fail w)
             = Responded (HTTPError
                            (mkHTTPException 429
                               "Too many failed attempts. Try again later.")))
      /\ (events (snd (serve (Some secret) INFERENCE_TIMEOUT allowed_order
                         work d request key body t_check t_fail w))
          = events w
          \/ exists msg,
               events (snd (serve (Some secret) INFERENCE_TIMEOUT
                              allowed_order work d request key body
                              t_check t_fail w))
               = events w ++ [LogWarning msg])).
Proof.
  intros Hkey.
  pose proof (verify_api_key_events (Some secret) request key t_check t_fail w)
    as Hev.
  assert (Hres : fst (verify_api_key (Some secret) request key
                                     t_check t_fail w) = Reject
                 \/ fst (verify_api_key (Some secret) request key
                                        t_check t_fail w) = Lockout).
  { unfold verify_api_key.
    destruct (_is_blocked t_check (_get_client_ip request) w) as [[] w1];
      [right; reflexivity|].
    rewrite (wrong_key_decide secret key Hkey). left; reflexivity. }
  destruct body as [| |file]; [left; split; reflexivity | |];
    right; (split; [discriminate|]); unfold serve, post_remove_bg;
    destruct (verify_api_key (Some secret) request key t_check t_fail w)
      as [r w1]; simpl in Hev, Hres;
    destruct Hres as [-> | ->]; simpl; (split; [|exact Hev]);
    [left | right | left | right]; reflexivity.
Qed.

Lemma wrong_key_never_reaches_handler_witness :
  (NoFile = Unparsable
   /\ serve (Some "s3cret") 120 source_order work_succeeds WorkFirst
            request_1234 None NoFile 1 1 world_init
      = (BadRequest, world_init))
  \/ (NoFile <> Unparsable
      /\ (fst (serve (Some "s3cret") 120 source_order work_succeeds WorkFirst
                     request_1234 None NoFile 1 1 world_init)
          = Responded (HTTPError (mkHTTPException 401
                                    "Invalid or missing API key."))
          \/ fst (serve (Some "s3cret") 120 source_order work_succeeds
                        WorkFirst request_1234 None NoFile 1 1 world_init)
             = Responded (HTTPError
                            (mkHTTPException 429
                               "Too many failed attempts. Try again later.")))
      /\ (events (snd (serve (Some "s3cret") 120 source_order work_succeeds
                         WorkFirst request_1234 None NoFile 1 1 world_init))
          = events world_init
          \/ exists msg,
               events (snd (serve (Some "s3cret") 120 source_order
                              work_succeeds WorkFirst request_1234 None
                              NoFile 1 1 world_init))
               = events world_init ++ [LogWarning msg])).
Proof.
  apply (wrong_key_never_reaches_handler "s3cret" 120 source_order
           work_succeeds WorkFirst request_1234 None NoFile 1 1 world_init).
  discriminate.
Defined.

(** * More on the upload limiter *)

Section UploadMore.

Local Open Scope Z_scope.

Lemma until_empty_nonempty (stream : list bytes) :
  Forall (fun c => c <> []) (until_empty stream).
Proof.
  induction stream as [|c rest IH]; [constructor|].
  destruct c as [|b c]; [constructor|].
  simpl. constructor; [discriminate | exact IH].
Qed.

Lemma until_empty_id (stream : list bytes) :
  Forall (fun c => c <> []) stream -> until_empty stream = stream.
Proof.
  induction 1 as [|c rest Hc _ IH]; [reflexivity|].
  destruct c as [|b c]; [congruence|]. simpl. now rewrite IH.
Qed.

Lemma until_empty_Forall (P : bytes -> Prop) (stream : list bytes) :
  Forall P stream -> Forall P (until_empty stream).
Proof.
  induction 1 as [|c rest Hc _ IH]; [constructor|].
  destruct c as [|b c]; [constructor|].
  simpl. constructor; assumption.
Qed.

(** The loop sees of a stream what comes before its first empty chunk. *)
Lemma read_loop_until_empty (stream : list bytes) :
  forall (acc : list bytes) (total : Z) (w : World),
    read_loop stream acc total w
    = read_loop (until_empty stream) acc total w.
Proof.
  induction stream as [|c rest IH]; intros acc total w; [reflexivity|].
  destruct c as [|b c]; [reflexivity|].
  change (until_empty ((b :: c) :: rest)) with ((b :: c) :: until_empty rest).
  rewrite !read_loop_step by discriminate.
  destruct (MAX_FILE_SIZE <? _); [reflexivity | apply IH].
Qed.

Lemma bytes_read_app (es es' : list Event) :
  bytes_read (es ++ es') = bytes_read es + bytes_read es'.
Proof.
  induction es as [|e es IH]; [reflexivity|].
  destruct e; simpl; rewrite IH; lia.
Qed.

Lemma bytes_read_reads (cs : list bytes) : bytes_read (reads cs) = size_of cs.
Proof.
  induction cs as [|c cs IH]; [reflexivity|].
  rewrite size_of_cons. simpl. rewrite IH. reflexivity.
Qed.

Lemma no_offload_reads (cs : list bytes) : no_offload (reads cs).
Proof.
  intros b ct Hin. apply in_map_iff in Hin as (c & Hc & _). discriminate.
Qed.

Lemma no_offload_app (es es' : list Event) :
  no_offload es -> no_offload es' -> no_offload (es ++ es').
Proof.
  intros H H' b ct Hin. apply in_app_or in Hin as [Hin|Hin];
    [exact (H b ct Hin) | exact (H' b ct Hin)].
Qed.

(** What [read_upload] does on any stream. *)
Lemma read_upload_cases (stream : list bytes) (w : World) :
  (size_of (until_empty stream) <= MAX_FILE_SIZE
   /\ read_upload stream w
      = (Return (concat (until_empty stream)),
         add_events (reads (until_empty stream) ++ [last_read]) w))
  \/ (exists pre c post,
        until_empty stream = pre ++ c :: post
        /\ size_of pre <= MAX_FILE_SIZE < size_of (pre ++ [c])
        /\ read_upload stream w
           = (Raise too_large, add_events (reads (pre ++ [c])) w)).
Proof.
  unfold read_upload. rewrite read_loop_until_empty.
  pose proof (until_empty_nonempty stream) as Hne.
  destruct (Z_le_gt_dec (size_of (until_empty stream)) MAX_FILE_SIZE)
    as [Hle|Hgt].
  - left. split; [exact Hle|].
    rewrite (read_loop_fits _ Hne [] 0 w) by lia. reflexivity.
  - right.
    destruct (read_loop_overflows _ Hne [] 0 w)
      as (pre & c & post & Heq & Hpre & Hc & Hrun);
      [unfold MAX_FILE_SIZE; lia | lia |].
    exists pre, c, post. rewrite Hrun. repeat split; [exact Heq | lia | lia].
Qed.

End UploadMore.

(** X11.  Whatever the reads return, bytes that come out of the upload loop are at
    most [MAX_FILE_SIZE] long, and they are the chunks read before the first
    empty one, joined in order: what follows an empty read is never asked
    for. *)
Theorem upload_never_exceeds_limit (stream : list bytes) (w w1 : World)
    (image_bytes : bytes) :
  read_upload stream w = (Return image_bytes, w1) ->
  (Z.of_nat (length image_bytes) <= MAX_FILE_SIZE)%Z
  /\ image_bytes = concat (until_empty stream)
  /\ w1 = add_events (reads (until_empty stream) ++ [last_read]) w.
Proof.
  intros Hrun.
  destruct (read_upload_cases stream w)
    as [[Hle Heq] | (pre & c & post & _ & _ & Heq)];
    rewrite Heq in Hrun; [|discriminate].
  injection Hrun as <- <-. repeat split. exact Hle.
Qed.

Lemma upload_never_exceeds_limit_witness :
  (Z.of_nat (length ["a"; "b"; "c"]%byte) <= MAX_FILE_SIZE)%Z.
Proof.
  apply (upload_never_exceeds_limit (two_chunks ++ [[]; ["z"%byte]])
           world_init after_jpeg_read).
  vm_compute. reflexivity.
Defined.

(** X12.  When no read returns more than [READ_SIZE] bytes, the loop takes in at
    most [MAX_FILE_SIZE + READ_SIZE] bytes before it ends, whether it ends
    with the upload or with 413; it starts no processing and leaves the
    dictionaries alone. *)
Theorem upload_reads_bounded (stream : list bytes) (w : World) :
  Forall (fun c => (Z.of_nat (length c) <= READ_SIZE)%Z) stream ->
  exists es,
    snd (read_upload stream w) = add_events es w
    /\ (bytes_read es <= MAX_FILE_SIZE + READ_SIZE)%Z
    /\ no_offload es.
Proof.
  intros Hsmall. apply (until_empty_Forall _ stream) in Hsmall.
  destruct (read_upload_cases stream w)
    as [[Hle Heq] | (pre & c & post & Hcut & [Hpre Hc] & Heq)];
    rewrite Heq; eexists; (split; [reflexivity|]); split.
  - rewrite bytes_read_app, bytes_read_reads. simpl.
    unfold READ_SIZE. lia.
  - apply no_offload_app; [apply no_offload_reads|].
    intros b ct [Hin|[]]. discriminate.
  - rewrite Hcut in Hsmall. apply Forall_app in Hsmall as [_ Hsmall].
    apply Forall_cons in Hsmall as [Hsmall _].
    rewrite bytes_read_reads, size_of_app, size_of_cons, size_of_nil.
    lia.
  - apply no_offload_reads.
Qed.

Lemma upload_reads_bounded_witness :
  exists es,
    snd (read_upload two_chunks world_init) = add_events es world_init
    /\ (bytes_read es <= MAX_FILE_SIZE + READ_SIZE)%Z
    /\ no_offload es.
Proof.
  apply (upload_reads_bounded two_chunks world_init).
  repeat constructor; vm_compute; discriminate.
Defined.

(** * More on the handler *)

Lemma type_allowed_true (ct : option string) :
  type_allowed ct = true ->
  exists t, ct = Some t /\ t ∈ ALLOWED_TYPES /\ or_empty ct = t.
Proof.
  destruct ct as [t|]; [|discriminate]. simpl. intros H.
  apply bool_decide_eq_true in H. exists t. auto.
Qed.

(** X13.  Whatever the request, the handler only adds events to the world, and it
    starts the processing at most once: if it does, the declared type is a
    member of [ALLOWED_TYPES] and is passed on as it is, and the bytes
    passed on are the upload as read, at most [MAX_FILE_SIZE] long. *)
Theorem processing_only_within_limits (INFERENCE_TIMEOUT : Z)
    (allowed_order : list string) (work : bytes -> string -> work_result)
    (d : Delivery) (file : UploadFile) (w : World) :
  exists es,
    snd (remove_bg INFERENCE_TIMEOUT allowed_order work d file w)
    = add_events es w
    /\ (no_offload es
        \/ exists before after image_bytes ct,
             es = before ++ Offload image_bytes ct :: after
             /\ no_offload before /\ no_offload after
             /\ content_type file = Some ct
             /\ ct ∈ ALLOWED_TYPES
             /\ (Z.of_nat (length image_bytes) <= MAX_FILE_SIZE)%Z
             /\ image_bytes = concat (until_empty (stream file))).
Proof.
  unfold remove_bg.
  destruct (type_allowed (content_type file)) eqn:Htype; simpl.
  - apply type_allowed_true in Htype as (t & Hct & Ht & Hor).
    destruct (read_upload_cases (stream file) w)
      as [[Hle Heq] | (pre & c & post & _ & _ & Heq)]; rewrite Heq.
    + set (rd := reads (until_empty (stream file)) ++ [last_read]).
      assert (Hrd : no_offload rd).
      { apply no_offload_app; [apply no_offload_reads|].
        intros b ct [Hin|[]]. discriminate. }
      assert (Hguard : forall lg, no_offload lg ->
                exists before after image_bytes ct,
                  rd ++ Offload (concat (until_empty (stream file))) t :: lg
                  = before ++ Offload image_bytes ct :: after
                  /\ no_offload before /\ no_offload after
                  /\ content_type file = Some ct
                  /\ ct ∈ ALLOWED_TYPES
                  /\ (Z.of_nat (length image_bytes) <= MAX_FILE_SIZE)%Z
                  /\ image_bytes = concat (until_empty (stream file))).
      { intros lg Hlg. exists rd, lg, (concat (until_empty (stream file))), t.
        repeat split; assumption. }
      assert (Hlog : forall msg, no_offload [LogError msg]).
      { intros msg b ct [Hin|[]]. discriminate. }
      assert (Hnil : no_offload []) by (intros b ct []).
      rewrite Hor. fold rd.
      destruct (try_body d work _ t) as [r|e]; [|destruct (exc_class e)];
        cbn [snd]; rewrite ?emit_add_events, ?add_events_app, <- ?app_assoc;
        eexists; (split; [reflexivity|]); right; apply Hguard;
        solve [apply Hlog | exact Hnil].
    + eexists. split; [reflexivity|]. left. apply no_offload_reads.
  - exists []. split.
    + unfold add_events. rewrite app_nil_r. now destruct w.
    + left. intros b ct [].
Qed.

(** * The model and the processing function *)

Section Processing.

Context {M Image : Type}.

Implicit Types (s : ModelState M) (lib : Libraries M Image).

Lemma get_model_loaded s (m : M) : _model s = Some m -> get_model s = Ok m.
Proof. intros H. unfold get_model. now rewrite H. Qed.

Lemma get_model_unloaded s :
  _model s = None ->
  get_model s = Err (mkExc ExceptionClass "Model not loaded.").
Proof. intros H. unfold get_model. now rewrite H. Qed.

Lemma load_model_loaded (opensource : result M) s (m : M) :
  _model s = Some m -> load_model opensource s = (Ok m, s).
Proof. intros H. unfold load_model. now rewrite H. Qed.

Lemma load_model_result (opensource : result M) s s' (m : M) :
  load_model opensource s = (Ok m, s') -> _model s' = Some m.
Proof.
  unfold load_model. destruct (_model s) as [m0|] eqn:E.
  - intros [= <- <-]. exact E.
  - destruct opensource as [m1|e]; [|discriminate].
    intros [= <- <-]. reflexivity.
Qed.

Lemma process_image_unloaded lib s (image_bytes : bytes) (ct : string) :
  _model s = None ->
  _process_image lib s image_bytes ct
  = Err (mkExc ExceptionClass "Model not loaded.").
Proof.
  intros H. unfold _process_image. now rewrite (get_model_unloaded s H).
Qed.

End Processing.

(** X14.  Once [load_model] has returned a model, [get_model] returns that model,
    and every later [load_model] returns it again without calling
    [WithoutBG.opensource()] and without logging: its result and the state
    do not depend on what the call would do. *)
Theorem model_is_loaded_once {M : Type} (opensource opensource' : result M)
    (s s' : ModelState M) (m : M) :
  load_model opensource s = (Ok m, s') ->
  get_model s' = Ok m
  /\ load_model opensource' s' = (Ok m, s').
Proof.
  intros H. apply load_model_result in H.
  split; [exact (get_model_loaded s' m H) |
          exact (load_model_loaded opensource' s' m H)].
Qed.

Lemma model_is_loaded_once_witness :
  get_model (snd (load_model (Ok 7%nat) model_init)) = Ok 7%nat
  /\ load_model (Err (mkExc ExceptionClass "no network"))
                (snd (load_model (Ok 7%nat) model_init))
     = (Ok 7%nat, snd (load_model (Ok 7%nat) model_init)).
Proof.
  apply (model_is_loaded_once (Ok 7%nat)
           (Err (mkExc ExceptionClass "no network")) model_init).
  reflexivity.
Defined.

(** X15.  When nothing is loaded and [WithoutBG.opensource()] raises, [load_model]
    raises the same exception after logging ["Loading model..."] only;
    nothing is loaded afterwards, so [lifespan] fails, [get_model] raises
    its [RuntimeError], and a later [load_model] tries again. *)
Theorem failed_load_leaves_no_model {M : Type} (e : Exc)
    (opensource' : result M) (s : ModelState M) :
  _model s = None ->
  load_model (Err e) s
  = (Err e, mkModelState None (info_log s ++ ["Loading model..."]))
  /\ fst (lifespan (Err e) s) = Err e
  /\ get_model (snd (load_model (Err e) s))
     = Err (mkExc ExceptionClass "Model not loaded.")
  /\ fst (load_model opensource' (snd (load_model (Err e) s))) = opensource'.
Proof.
  intros H. unfold lifespan, load_model. rewrite H. simpl.
  repeat split. destruct opensource'; reflexivity.
Qed.

Lemma failed_load_leaves_no_model_witness :
  fst (load_model (Ok 7%nat)
         (snd (load_model (Err (mkExc ExceptionClass "no network"))
                          model_init)))
  = Ok 7%nat.
Proof.
  apply (failed_load_leaves_no_model (mkExc ExceptionClass "no network")
           (Ok 7%nat) model_init).
  reflexivity.
Defined.

(** X16.  A request that is processed while no model is loaded is answered 500
    with the fixed detail, whatever was uploaded and whatever the libraries
    would do: [_process_image] asks for the model before anything else, and
    the log gets ["Inference failed: Model not loaded."]. *)
Theorem unloaded_model_gives_500 {M Image : Type} (lib : Libraries M Image)
    (s : ModelState M) (INFERENCE_TIMEOUT : Z) (allowed_order : list string)
    (file : UploadFile) (w w1 : World) (image_bytes : bytes) :
  _model s = None ->
  type_allowed (content_type file) = true ->
  read_upload (stream file) w = (Return image_bytes, w1) ->
  remove_bg INFERENCE_TIMEOUT allowed_order (process_work lib s) WorkFirst
            file w
  = (HTTPError (mkHTTPException 500 "Background removal failed."),
     add_events [Offload image_bytes (or_empty (content_type file));
                 LogError "Inference failed: Model not loaded."] w1).
Proof.
  intros Hs Htype Hread.
  rewrite (remove_bg_raised INFERENCE_TIMEOUT allowed_order
             (process_work lib s) WorkFirst file w w1 image_bytes
             (mkExc ExceptionClass "Model not loaded.") Htype Hread).
  - reflexivity.
  - simpl. unfold process_work.
    now rewrite (process_image_unloaded lib s _ _ Hs).
Qed.

Lemma unloaded_model_gives_500_witness :
  fst (remove_bg 120 source_order (process_work toy_libraries model_init)
                 WorkFirst jpeg_upload world_init)
  = HTTPError (mkHTTPException 500 "Background removal failed.").
Proof.
  rewrite (unloaded_model_gives_500 toy_libraries model_init 120 source_order
             jpeg_upload world_init after_jpeg_read ["a"; "b"; "c"]%byte).
  - reflexivity.
  - reflexivity.
  - vm_compute. reflexivity.
  - vm_compute. reflexivity.
Defined.

(** X17.  An SVG upload that cairosvg renders is processed exactly as the
    rendered PNG would be; one that cairosvg rejects fails with cairosvg's
    exception once the model is there; and for every other content type the
    result does not depend on cairosvg at all. *)
Theorem svg_is_rendered_first {M Image : Type} (lib : Libraries M Image)
    (s : ModelState M) (image_bytes : bytes) :
  (forall png_data,
     svg2png lib image_bytes = Ok png_data ->
     _process_image lib s image_bytes "image/svg+xml"
     = _process_image lib s png_data "image/png")
  /\ (forall e m,
        svg2png lib image_bytes = Err e -> _model s = Some m ->
        _process_image lib s image_bytes "image/svg+xml" = Err e)
  /\ (forall ct svg2png',
        ct <> "image/svg+xml" ->
        _process_image lib s image_bytes ct
        = _process_image
            (mkLibraries svg2png' (open_rgb lib) (remove_background lib)
                         (save_png lib))
            s image_bytes ct).
Proof.
  split; [|split].
  - intros png Hpng. unfold _process_image. simpl String.eqb.
    rewrite Hpng. reflexivity.
  - intros e m He Hm. unfold _process_image.
    rewrite (get_model_loaded s m Hm). simpl. rewrite He. reflexivity.
  - intros ct svg2png' Hct. unfold _process_image.
    apply String.eqb_neq in Hct. rewrite Hct. reflexivity.
Qed.

(** * Strings: fields and white space *)

Section Strings.

Implicit Types (s r : string) (c : ascii).

Lemma split_comma_cons s : exists x xs, split_comma s = x :: xs.
Proof.
  induction s as [|c r (x & xs & IH)]; [exists "", []; reflexivity|].
  simpl. destruct (Ascii.eqb c ","); [eauto|]. rewrite IH. eauto.
Qed.

Lemma concat_cons_cons (sep x y : string) (l : list string) :
  String.concat sep (x :: y :: l)
  = x +:+ sep +:+ String.concat sep (y :: l).
Proof. reflexivity. Qed.

Lemma concat_String (sep : string) c (x : string) (xs : list string) :
  String.concat sep (String c x :: xs) = String c (String.concat sep (x :: xs)).
Proof. destruct xs; reflexivity. Qed.

Lemma split_comma_join s : String.concat "," (split_comma s) = s.
Proof.
  induction s as [|c r IH]; [reflexivity|].
  destruct (split_comma_cons r) as (x & xs & Hr).
  simpl. destruct (Ascii.eqb c ",") eqn:E.
  - apply Ascii.eqb_eq in E. subst c. rewrite Hr in *.
    rewrite concat_cons_cons, IH. reflexivity.
  - rewrite Hr in *. rewrite concat_String, IH. reflexivity.
Qed.

Lemma split_comma_no_comma s :
  Forall (fun x => has_comma x = false) (split_comma s).
Proof.
  induction s as [|c r IH]; [repeat constructor|].
  simpl. destruct (Ascii.eqb c ",") eqn:E.
  - constructor; [reflexivity | exact IH].
  - destruct (split_comma r) as [|x xs]; [repeat constructor; simpl; now rewrite E|].
    apply Forall_cons in IH as [Hx Hxs].
    constructor; [simpl; now rewrite E, Hx | exact Hxs].
Qed.

Lemma split_comma_head s : head (split_comma s) = Some (first_field s).
Proof.
  induction s as [|c r IH]; [reflexivity|].
  simpl. destruct (Ascii.eqb c ","); [reflexivity|].
  destruct (split_comma r) as [|x xs]; [discriminate|].
  simpl in IH. injection IH as <-. reflexivity.
Qed.

Lemma first_field_no_comma s : has_comma (first_field s) = false.
Proof.
  induction s as [|c r IH]; [reflexivity|].
  simpl. destruct (Ascii.eqb c ",") eqn:E; [reflexivity|].
  simpl. now rewrite E.
Qed.

Lemma first_field_app s (rest : string) :
  has_comma s = false -> first_field (s +:+ "," +:+ rest) = s.
Proof.
  induction s as [|c r IH]; [reflexivity|].
  simpl. intros H. apply orb_false_iff in H as [Hc Hr].
  change (String c r +:+ "," +:+ rest) with (String c (r +:+ "," +:+ rest)).
  simpl. rewrite Hc, (IH Hr). reflexivity.
Qed.

Lemma first_field_id s : has_comma s = false -> first_field s = s.
Proof.
  induction s as [|c r IH]; [reflexivity|].
  simpl. intros H. apply orb_false_iff in H as [Hc Hr].
  rewrite Hc, (IH Hr). reflexivity.
Qed.

Lemma lstrip_no_comma s : has_comma s = false -> has_comma (lstrip s) = false.
Proof.
  induction s as [|c r IH]; [reflexivity|].
  intros H. simpl. destruct (py_isspace c); [|exact H].
  simpl in H. apply orb_false_iff in H as [_ Hr]. exact (IH Hr).
Qed.

Lemma rstrip_no_comma s : has_comma s = false -> has_comma (rstrip s) = false.
Proof.
  induction s as [|c r IH]; [reflexivity|].
  simpl. intros H. apply orb_false_iff in H as [Hc Hr]. specialize (IH Hr).
  destruct (rstrip r) as [|c' r'].
  - destruct (py_isspace c); [reflexivity|]. simpl. now rewrite Hc.
  - simpl. rewrite Hc. exact IH.
Qed.

Lemma lstrip_starts_black s : starts_black (lstrip s).
Proof.
  induction s as [|c r IH]; [exact I|].
  simpl. destruct (py_isspace c) eqn:E; [exact IH | exact E].
Qed.

Lemma lstrip_black s : starts_black s -> lstrip s = s.
Proof. destruct s as [|c r]; [reflexivity|]. simpl. now intros ->. Qed.

Lemma rstrip_starts_black s : starts_black s -> starts_black (rstrip s).
Proof.
  destruct s as [|c r]; [exact (fun H => H)|].
  simpl. intros H. rewrite H. destruct (rstrip r); exact H.
Qed.

Lemma rstrip_idem s : rstrip (rstrip s) = rstrip s.
Proof.
  induction s as [|c r IH]; [reflexivity|].
  simpl. destruct (rstrip r) as [|c' r'] eqn:E.
  - destruct (py_isspace c) eqn:Ec; [reflexivity|]. simpl. now rewrite Ec.
  - change (rstrip (String c (String c' r')) = String c (String c' r')).
    simpl. simpl in IH. rewrite IH. destruct (rstrip r'); reflexivity.
Qed.

Lemma strip_idem s : strip (strip s) = strip s.
Proof.
  unfold strip.
  rewrite (lstrip_black (rstrip (lstrip s)))
    by apply rstrip_starts_black, lstrip_starts_black.
  apply rstrip_idem.
Qed.

Lemma lstrip_all_space s : all_space s = true -> lstrip s = "".
Proof.
  induction s as [|c r IH]; [reflexivity|].
  simpl. intros H. apply andb_true_iff in H as [Hc Hr].
  rewrite Hc. exact (IH Hr).
Qed.

Lemma lstrip_pad (pad s : string) :
  all_space pad = true -> lstrip (pad +:+ s) = lstrip s.
Proof.
  induction pad as [|c r IH]; [reflexivity|].
  simpl. intros H. apply andb_true_iff in H as [Hc Hr].
  change (String c r +:+ s) with (String c (r +:+ s)).
  simpl. rewrite Hc. exact (IH Hr).
Qed.

Lemma all_space_no_comma s : all_space s = true -> has_comma s = false.
Proof.
  induction s as [|c r IH]; [reflexivity|].
  simpl. intros H. apply andb_true_iff in H as [Hc Hr].
  rewrite (IH Hr), orb_false_r.
  destruct (Ascii.eqb c ",") eqn:E; [|reflexivity].
  apply Ascii.eqb_eq in E. subst c. discriminate Hc.
Qed.

Lemma first_field_pad (pad s : string) :
  has_comma pad = false ->
  first_field (pad +:+ s) = pad +:+ first_field s.
Proof.
  induction pad as [|c r IH]; [reflexivity|].
  simpl. intros H. apply orb_false_iff in H as [Hc Hr].
  change (String c r +:+ s) with (String c (r +:+ s)).
  change (String c r +:+ first_field s) with (String c (r +:+ first_field s)).
  simpl. rewrite Hc, (IH Hr). reflexivity.
Qed.

End Strings.

(** * The client identity *)

Lemma get_client_ip_forwarded (c : ascii) (r : string) (peer : option string) :
  _get_client_ip (mkRequest (Some (String c r)) peer)
  = strip (first_field (String c r)).
Proof. reflexivity. Qed.

(** X18.  When the forwarded-address header is not empty, the identity is the
    first element of the header split at commas, stripped of white space at
    both ends.  It holds no comma and no white space at either end, and it
    depends neither on the peer address, nor on what follows the first
    comma, nor on white space in front of the header. *)
Theorem forwarded_identity (fwd : string) (peer : option string) :
  fwd <> "" ->
  Some (_get_client_ip (mkRequest (Some fwd) peer))
  = strip <$> head (split_comma fwd)
  /\ has_comma (_get_client_ip (mkRequest (Some fwd) peer)) = false
  /\ strip (_get_client_ip (mkRequest (Some fwd) peer))
     = _get_client_ip (mkRequest (Some fwd) peer)
  /\ (forall rest peer',
        _get_client_ip
          (mkRequest (Some (first_field fwd +:+ "," +:+ rest)) peer')
        = _get_client_ip (mkRequest (Some fwd) peer))
  /\ (forall pad,
        all_space pad = true ->
        _get_client_ip (mkRequest (Some (pad +:+ fwd)) peer)
        = _get_client_ip (mkRequest (Some fwd) peer)).
Proof.
  intros Hne. destruct fwd as [|c r]; [congruence|].
  rewrite get_client_ip_forwarded. set (fwd := String c r).
  split; [now rewrite split_comma_head|].
  split; [apply rstrip_no_comma, lstrip_no_comma, first_field_no_comma|].
  split; [apply strip_idem|]. split.
  - intros rest peer'.
    assert (Hs : exists c' r', first_field fwd +:+ "," +:+ rest = String c' r')
      by (destruct (first_field fwd); simpl; eauto).
    destruct Hs as (c' & r' & Hs).
    rewrite Hs, get_client_ip_forwarded, <- Hs.
    now rewrite (first_field_app _ rest (first_field_no_comma fwd)).
  - intros pad Hpad.
    assert (Hs : exists c' r', pad +:+ fwd = String c' r')
      by (destruct pad; simpl; eauto).
    destruct Hs as (c' & r' & Hs).
    rewrite Hs, get_client_ip_forwarded, <- Hs.
    rewrite (first_field_pad pad fwd (all_space_no_comma pad Hpad)).
    unfold strip. now rewrite (lstrip_pad pad _ Hpad).
Qed.

Lemma forwarded_identity_witness :
  _get_client_ip
    (mkRequest (Some ("  " +:+ "1.2.3.4, 10.0.0.1")) (Some "10.0.0.9"))
  = _get_client_ip (mkRequest (Some "1.2.3.4, 10.0.0.1") (Some "10.0.0.9")).
Proof.
  destruct (forwarded_identity "1.2.3.4, 10.0.0.1" (Some "10.0.0.9"))
    as (_ & _ & _ & _ & Hpad); [discriminate|].
  apply Hpad. reflexivity.
Defined.

(** X19.  A forwarded-address header that is not empty but whose first element is
    blank, such as [","] or a single space, gives the empty string as the
    identity, not the peer address and not ["unknown"]: all such requests
    share one attempt record. *)
Theorem blank_forwarded_identity (fwd : string) (peer : option string) :
  fwd <> "" ->
  all_space (first_field fwd) = true ->
  _get_client_ip (mkRequest (Some fwd) peer) = "".
Proof.
  intros Hne Hblank. destruct fwd as [|c r]; [congruence|].
  rewrite get_client_ip_forwarded. unfold strip.
  now rewrite (lstrip_all_space _ Hblank).
Qed.

Lemma blank_forwarded_identity_witness :
  _get_client_ip (mkRequest (Some " ,10.0.0.1") (Some "10.0.0.9")) = "".
Proof.
  apply (blank_forwarded_identity " ,10.0.0.1" (Some "10.0.0.9")).
  - discriminate.
  - reflexivity.
Defined.

(** * The allowed origins *)

(** X20.  [CORS_ORIGINS] is empty, and the CORS middleware left out, exactly when
    the variable is unset or empty.  Otherwise [CORS_ORIGINS] is the value
    cut at its commas and nothing else: joining the elements with commas
    gives the value back, so white space around an origin stays part of it,
    and no element holds a comma. *)
Theorem cors_origins_split (env : option string) :
  (CORS_ORIGINS env = [] <-> env = None \/ env = Some "")
  /\ (cors_middleware_added env = true <-> exists v, env = Some v /\ v <> "")
  /\ (forall v, env = Some v -> v <> "" ->
        String.concat "," (CORS_ORIGINS env) = v
        /\ Forall (fun x => has_comma x = false) (CORS_ORIGINS env)).
Proof.
  unfold cors_middleware_added.
  destruct env as [[|c r]|]; unfold CORS_ORIGINS.
  - split; [split; auto|]. split.
    + split; [discriminate|]. intros (v & [= <-] & Hv). congruence.
    + intros v [= <-] Hv. congruence.
  - destruct (split_comma_cons (String c r)) as (x & xs & Hs).
    split; [|split].
    + rewrite Hs. split; [discriminate|]. intros [H|H]; discriminate.
    + rewrite Hs. split; [|reflexivity]. intros _. eexists.
      split; [reflexivity | discriminate].
    + intros v [= <-] _.
      split; [apply split_comma_join | apply split_comma_no_comma].
  - split; [split; auto|]. split.
    + split; [discriminate|]. intros (v & Hv & _). discriminate.
    + intros v Hv. discriminate.
Qed.

(** * The outcomes of a request *)

Lemma verify_api_key_result (API_KEY : option string) (request : Request)
    (key : option string) (t_check t_fail : float) (w : World) :
  fst (verify_api_key API_KEY request key t_check t_fail w) = Allow
  \/ fst (verify_api_key API_KEY request key t_check t_fail w) = Reject
  \/ fst (verify_api_key API_KEY request key t_check t_fail w) = Lockout.
Proof.
  unfold verify_api_key. destruct API_KEY as [secret|]; [|left; reflexivity].
  destruct (_is_blocked t_check (_get_client_ip request) w) as [[] w1];
    [right; right; reflexivity|].
  destruct (negb (bool_decide (key = Some secret)));
    [right; left; reflexivity | left; reflexivity].
Qed.

Lemma remove_bg_result (INFERENCE_TIMEOUT : Z) (allowed_order : list string)
    (work : bytes -> string -> work_result) (d : Delivery)
    (file : UploadFile) (w : World) :
  fst (remove_bg INFERENCE_TIMEOUT allowed_order work d file w)
  = HTTPError (mkHTTPException 415
                 (unsupported_detail allowed_order (content_type file)))
  \/ fst (remove_bg INFERENCE_TIMEOUT allowed_order work d file w)
     = HTTPError too_large
  \/ fst (remove_bg INFERENCE_TIMEOUT allowed_order work d file w)
     = HTTPError (mkHTTPException 504 "Processing timed out.")
  \/ fst (remove_bg INFERENCE_TIMEOUT allowed_order work d file w)
     = HTTPError (mkHTTPException 500 "Background removal failed.")
  \/ (exists result_bytes,
        fst (remove_bg INFERENCE_TIMEOUT allowed_order work d file w)
        = ok_response result_bytes
        /\ d = WorkFirst
        /\ work (concat (until_empty (stream file)))
                (or_empty (content_type file)) = Returned result_bytes)
  \/ (exists e,
        fst (remove_bg INFERENCE_TIMEOUT allowed_order work d file w)
        = Unhandled e
        /\ exc_class e = BaseExceptionClass).
Proof.
  unfold remove_bg.
  destruct (type_allowed (content_type file)); simpl; [|left; reflexivity].
  destruct (read_upload_cases (stream file) w)
    as [[_ Heq] | (pre & c & post & _ & _ & Heq)]; rewrite Heq;
    [|right; left; reflexivity].
  destruct (try_body d work _ _) as [r|e] eqn:Htry.
  - do 4 right. left. exists r. split; [reflexivity|].
    destruct d; [split; [reflexivity | exact Htry] | discriminate].
  - destruct (exc_class e) eqn:Hc; simpl.
    + right; right; left; reflexivity.
    + right; right; right; left; reflexivity.
    + do 5 right. exists e. split; [reflexivity | exact Hc].
Qed.

(** X21.  Every request that FastAPI dispatches to the route ends in one of
    ten ways: 400 for a body that cannot be parsed; 401 or 429 from the
    dependency; 422 for a request without upload that the dependency lets
    through; 413, 504 or 500 with a detail fixed in the source; 415 with a
    detail that names the declared content type and the allowed types; the
    bytes the processing function returned for the upload as read, as a PNG
    attachment; or an exception outside [Exception] that the handler lets
    through. *)
Theorem route_outcomes (API_KEY : option string) (INFERENCE_TIMEOUT : Z)
    (allowed_order : list string) (work : bytes -> string -> work_result)
    (d : Delivery) (request : Request) (key : option string)
    (body : Body) (t_check t_fail : float) (w : World) :
  let served :=
    fst (serve API_KEY INFERENCE_TIMEOUT allowed_order work d
               request key body t_check t_fail w) in
  (served = BadRequest /\ body = Unparsable)
  \/ served = Responded (HTTPError (mkHTTPException 401
                                      "Invalid or missing API key."))
  \/ served = Responded (HTTPError
                           (mkHTTPException 429
                              "Too many failed attempts. Try again later."))
  \/ (served = Unprocessable /\ body = NoFile)
  \/ (exists file,
        body = Upload file
        /\ (served
            = Responded
                (HTTPError
                   (mkHTTPException 415
                      ("Unsupported file type: "
                         +:+ py_str (content_type file) +:+ ". Allowed: "
                         +:+ String.concat ", " allowed_order)))
            \/ served = Responded (HTTPError (mkHTTPException 413
                                                "File too large. Max 20 MB."))
            \/ served = Responded (HTTPError (mkHTTPException 504
                                                "Processing timed out."))
            \/ served = Responded (HTTPError (mkHTTPException 500
                                                "Background removal failed."))
            \/ (exists result_bytes,
                  served
                  = Responded
                      (StreamingResponse result_bytes "image/png"
                         [("Content-Disposition",
                           "attachment; filename=no-bg.png")])
                  /\ d = WorkFirst
                  /\ work (concat (until_empty (stream file)))
                          (or_empty (content_type file))
                     = Returned result_bytes)
            \/ (exists e, served = Responded (Unhandled e)
                          /\ exc_class e = BaseExceptionClass))).
Proof.
  cbv zeta. unfold serve, post_remove_bg.
  destruct body as [| |file]; [left; split; reflexivity | |];
    pose proof (verify_api_key_result API_KEY request key t_check t_fail w)
      as Hv;
    destruct (verify_api_key API_KEY request key t_check t_fail w) as [r w1];
    simpl in Hv; destruct Hv as [-> | [-> | ->]]; unfold Allow, Reject, Lockout.
  - do 3 right. left. split; reflexivity.
  - right. left. reflexivity.
  - right. right. left. reflexivity.
  - do 4 right. exists file. split; [reflexivity|].
    destruct (remove_bg INFERENCE_TIMEOUT allowed_order work d file w1)
      as [r w2] eqn:Hrun.
    pose proof (remove_bg_result INFERENCE_TIMEOUT allowed_order work d file w1)
      as H.
    rewrite Hrun in H. simpl in H.
    destruct H as [H | [H | [H | [H | [H | H]]]]].
    + left. now rewrite H.
    + right. left. now rewrite H.
    + do 2 right. left. now rewrite H.
    + do 3 right. left. now rewrite H.
    + do 4 right. left. destruct H as (rb & -> & Hd & Hw). exists rb. auto.
    + do 5 right. destruct H as (e & -> & Hc). exists e. auto.
  - right. left. reflexivity.
  - right. right. left. reflexivity.
Qed.

(** X22.  In a running server the warning that reports a lockout is logged by
    the request that creates the lockout and by no other, and it always
    counts five failed attempts: a request either leaves the events as they
    are, and then it changed nothing or its identity has no lockout
    afterwards, or it is answered 401, its identity is locked out since the
    clock reading of this failure, and the one new event is that warning. *)
Theorem lockout_warning (secret : string) (request : Request)
    (key : option string) (t_check t_fail : float) (w : World) :
  reachable (Some secret) w ->
  (events (snd (verify_api_key (Some secret) request key t_check t_fail w))
   = events w
   /\ (snd (verify_api_key (Some secret) request key t_check t_fail w) = w
       \/ _blocked_ips
            (snd (verify_api_key (Some secret) request key t_check t_fail w))
            !! _get_client_ip request = None))
  \/ (events (snd (verify_api_key (Some secret) request key t_check t_fail w))
      = events w
          ++ [LogWarning ("Blocked " +:+ _get_client_ip request
                            +:+ " for 900s after 5 failed auth attempts")]
      /\ _blocked_ips
           (snd (verify_api_key (Some secret) request key t_check t_fail w))
           !! _get_client_ip request = Some t_fail
      /\ fst (verify_api_key (Some secret) request key t_check t_fail w)
         = Raise (mkHTTPException 401 "Invalid or missing API key.")).
Proof.
  intros Hreach. apply reachable_tracker_inv in Hreach.
  unfold verify_api_key.
  pose proof (tracker_inv_is_blocked t_check (_get_client_ip request) w Hreach)
    as [Hinv1 Hnone].
  assert (He : events (snd (_is_blocked t_check (_get_client_ip request) w))
               = events w).
  { unfold _is_blocked. destruct (_blocked_ips w !! _); [|reflexivity].
    destruct (_ <? _); reflexivity. }
  assert (Hsame : fst (_is_blocked t_check (_get_client_ip request) w) = true
                  -> snd (_is_blocked t_check (_get_client_ip request) w) = w).
  { unfold _is_blocked. destruct (_blocked_ips w !! _); [|discriminate].
    destruct (_ <? _); [reflexivity | discriminate]. }
  destruct (_is_blocked t_check (_get_client_ip request) w) as [blocked w1].
  simpl in Hinv1, Hnone, He, Hsame.
  destruct blocked; simpl.
  - left. split; [exact He | left; exact (Hsame eq_refl)].
  - specialize (Hnone eq_refl).
    destruct (bool_decide (key = Some secret)); simpl.
    + left. split; [exact He | right; exact Hnone].
    + pose proof (stored_attempts_short _ w1 Hinv1 Hnone) as Hshort.
      pose proof (in_window_length t_fail
                    (stored_attempts (_get_client_ip request) w1)) as Hw.
      pose proof (attempts_after_length t_fail (_get_client_ip request) w1)
        as Hlen.
      unfold _record_failure.
      destruct (MAX_FAILED_ATTEMPTS <=? _)%nat eqn:E; simpl.
      * apply Nat.leb_le in E. right.
        assert (Hfive : length (attempts_after t_fail
                                  (_get_client_ip request) w1) = 5%nat)
          by (unfold MAX_FAILED_ATTEMPTS in *; lia).
        rewrite Hfive, He. split; [reflexivity|].
        split; [apply lookup_insert_eq | reflexivity].
      * left. split; [exact He | right; exact Hnone].
Qed.

Lemma lockout_warning_witness :
  (events (snd (verify_api_key (Some "s3cret") request_1234 None 2 2
                               after_one_wrong_key))
   = events after_one_wrong_key
   /\ (snd (verify_api_key (Some "s3cret") request_1234 None 2 2
                           after_one_wrong_key) = after_one_wrong_key
       \/ _blocked_ips
            (snd (verify_api_key (Some "s3cret") request_1234 None 2 2
                                 after_one_wrong_key))
            !! _get_client_ip request_1234 = None))
  \/ (events (snd (verify_api_key (Some "s3cret") request_1234 None 2 2
                                  after_one_wrong_key))
      = events after_one_wrong_key
          ++ [LogWarning ("Blocked " +:+ _get_client_ip request_1234
                            +:+ " for 900s after 5 failed auth attempts")]
      /\ _blocked_ips
           (snd (verify_api_key (Some "s3cret") request_1234 None 2 2
                                after_one_wrong_key))
           !! _get_client_ip request_1234 = Some 2
      /\ fst (verify_api_key (Some "s3cret") request_1234 None 2 2
                             after_one_wrong_key)
         = Raise (mkHTTPException 401 "Invalid or missing API key.")).
Proof.
  apply (lockout_warning "s3cret" request_1234 None 2 2 after_one_wrong_key).
  apply reachable_request, reachable_init.
Defined.
